(** * Attendance backend: a model of [backend/app.py]

    The Flask application registers employees with a public-key ceremony
    ([/register/start], [/register/finish]) and clocks them in after an
    authentication ceremony gated by a geofence ([/login/start],
    [/login/finish]).  This file embeds the four handlers, the [distance]
    helper and the Python values they manipulate, and proves the properties
    of the handlers that the specification states.

    Conventions.
    - A Python [str] or [bytes] is a Rocq [string] (its UTF-8 bytes).
    - A Python [float] is a binary64 [float]; a Python [int] is a [Z].
    - The Flask [session] of the calling actor is a [gmap string string];
      the SQLite tables are lists of rows in insertion order.
    - What the application imports but does not define is a field of a
      record that every handler takes as an argument: the C library's
      [sin], [cos], [atan2] and [pow] ([Libm]), the conversions between
      floats and text ([FloatText]) and the [webauthn] package
      ([WebAuthn]). *)

From Stdlib Require Import ZArith String Ascii List Floats Bool Lia DecimalString.
From stdpp Require Import gmap strings list fin_maps.

Set Default Proof Using "Type".
Set Warnings "-register-all,-inexact-float".

(** ** Python exceptions and the error monad *)

Inductive pyexn : Type :=
| AttributeError
| TypeError
| ValueError
| OverflowError
| IntegrityError
| ValidationError.

Inductive raises (A : Type) : Type :=
| Return (a : A)
| Raise (e : pyexn).

Arguments Return {A} a.
Arguments Raise {A} e.

Definition bind {A B : Type} (m : raises A) (k : A → raises B) : raises B :=
  match m with
  | Return a => k a
  | Raise e => Raise e
  end.

Notation "'let!' x ':=' m 'in' k" := (bind m (fun x => k))
  (at level 10, x name, m at level 100, k at level 200).

(** ** Values decoded from a JSON request body

    [request.get_json()] yields [None], [bool], [int], [float], [str],
    [list] and [dict] objects.  A [dict] keeps its keys in insertion order
    and holds each key once. *)

Inductive jvalue : Type :=
| JNull
| JBool (b : bool)
| JInt (z : Z)
| JFloat (f : float)
| JStr (s : string)
| JArr (items : list jvalue)
| JObj (fields : list (string * jvalue)).

(** Python truthiness, as tested by [not v] and by [all([...])]. *)
Definition truthy (v : jvalue) : bool :=
  match v with
  | JNull => false
  | JBool b => b
  | JInt z => negb (z =? 0)%Z
  | JFloat f => negb (f =? 0)%float
  | JStr s => negb (String.eqb s "")
  | JArr items => match items with [] => false | _ => true end
  | JObj fields => match fields with [] => false | _ => true end
  end.

(** [d.get(k)] on a dict: the value, or [None]. *)
Fixpoint dict_get (k : string) (fields : list (string * jvalue)) : jvalue :=
  match fields with
  | [] => JNull
  | (k', v) :: rest => if String.eqb k k' then v else dict_get k rest
  end.

(** [d[k] = v] on a dict: an existing key keeps its position. *)
Fixpoint dict_set (fields : list (string * jvalue)) (k : string) (v : jvalue)
  : list (string * jvalue) :=
  match fields with
  | [] => [(k, v)]
  | (k', v') :: rest =>
      if String.eqb k k' then (k', v) :: rest else (k', v') :: dict_set rest k v
  end.

(** [v.get(k)]: only a dict has the method. *)
Definition py_get (v : jvalue) (k : string) : raises jvalue :=
  match v with
  | JObj fields => Return (dict_get k fields)
  | _ => Raise AttributeError
  end.

(** ** Characters *)

Definition chr (n : nat) : ascii := ascii_of_nat n.
Definition ord (c : ascii) : nat := nat_of_ascii c.

Definition dquote : ascii := chr 34.
Definition squote : ascii := chr 39.
Definition backslash : ascii := chr 92.

Definition str1 (c : ascii) : string := String c EmptyString.

Fixpoint contains_char (c : ascii) (s : string) : bool :=
  match s with
  | EmptyString => false
  | String c' rest => Ascii.eqb c c' || contains_char c rest
  end.


Definition hex_digit (n : nat) : ascii :=
  if n <? 10 then chr (48 + n) else chr (87 + n).

(** ** [str()] and [repr()] of a decoded value *)

Record FloatText : Type := {
  (** [repr(x)] of a float, the shortest text that reads back as [x]. *)
  repr_float : float → string;
  (** [float(text)] on the text of a JSON number. *)
  parse_float : string → float
}.

(** One character of [repr(s)].  Characters above U+007F are taken to be
    printable and are written as they are. *)
Definition repr_char (quote c : ascii) : string :=
  if Ascii.eqb c quote || Ascii.eqb c backslash then String backslash (str1 c)
  else if Ascii.eqb c (chr 9) then String backslash "t"
  else if Ascii.eqb c (chr 10) then String backslash "n"
  else if Ascii.eqb c (chr 13) then String backslash "r"
  else if (ord c <? 32) || (ord c =? 127) then
    String backslash (String "x"
      (String (hex_digit (ord c / 16)) (str1 (hex_digit (ord c mod 16)))))
  else str1 c.

Fixpoint repr_chars (quote : ascii) (s : string) : string :=
  match s with
  | EmptyString => EmptyString
  | String c rest => repr_char quote c +:+ repr_chars quote rest
  end.

(** [repr(s)] of a [str]: single quotes, unless the text has a single quote
    and no double quote. *)
Definition repr_str (s : string) : string :=
  let quote :=
    if contains_char squote s && negb (contains_char dquote s)
    then dquote else squote in
  String quote (repr_chars quote s +:+ str1 quote).

Definition repr_int (z : Z) : string := NilZero.string_of_int (Z.to_int z).

Fixpoint join (sep : string) (parts : list string) : string :=
  match parts with
  | [] => EmptyString
  | [p] => p
  | p :: rest => p +:+ sep +:+ join sep rest
  end.

Section Repr.
Context (T : FloatText).

Fixpoint py_repr (v : jvalue) : string :=
  match v with
  | JNull => "None"
  | JBool true => "True"
  | JBool false => "False"
  | JInt z => repr_int z
  | JFloat f => repr_float T f
  | JStr s => repr_str s
  | JArr items => "[" +:+ join ", " (map py_repr items) +:+ "]"
  | JObj fields =>
      "{" +:+ join ", "
               (map (fun kv => repr_str (fst kv) +:+ ": " +:+ py_repr (snd kv))
                    fields) +:+ "}"
  end.

(** [str(v)]: a [str] is itself, anything else is its [repr]. *)
Definition py_str (v : jvalue) : string :=
  match v with
  | JStr s => s
  | _ => py_repr v
  end.
End Repr.

(** [s.replace(old, new)] for one-character [old] and [new]. *)
Fixpoint replace_char (old new : ascii) (s : string) : string :=
  match s with
  | EmptyString => EmptyString
  | String c rest =>
      String (if Ascii.eqb c old then new else c) (replace_char old new rest)
  end.

(** ** [json.loads]

    The decoder of Python's [json] package, as one pass over the text: a
    mode says what may come next and a stack holds the lists and dicts that
    are still open.  It accepts what the package accepts ([NaN], [Infinity]
    and [-Infinity] included, control characters inside strings refused)
    and builds the same values; a repeated key keeps its first position and
    its last value.  The interpreter's recursion limit is not modelled. *)

Inductive frame : Type :=
| FArr (items : list jvalue)           (* an open list, its items last first *)
| FObj (fields : list (string * jvalue))             (* an open dict *)
| FKey (fields : list (string * jvalue)) (key : string).
                                       (* an open dict, [key] awaits its value *)

Inductive numstate : Type :=
| NMinus | NZero | NInt | NDot | NFrac | NExp | NExpSign | NExpDigits.

Inductive mode : Type :=
| MValue                                 (* a value must start *)
| MValueOrClose                          (* after [[]: a value or []] *)
| MKeyOrClose                            (* after [{]: a key or [}] *)
| MKey                                   (* after [,] in a dict: a key *)
| MColon                                 (* after a key *)
| MAfter                                 (* after a value inside a container *)
| MDone (v : jvalue)                     (* after the top-level value *)
| MString (acc : list ascii) (hs : option N)
| MEscape (acc : list ascii) (hs : option N)
| MHex (acc : list ascii) (hs : option N) (todo : nat) (code : N)
| MLit (rest : string) (v : jvalue)
| MNum (ns : numstate) (acc : list ascii).

Definition pstate : Type := mode * list frame.

Definition is_ws (c : ascii) : bool :=
  Ascii.eqb c " " || Ascii.eqb c (chr 9) || Ascii.eqb c (chr 10)
  || Ascii.eqb c (chr 13).

Definition is_digit (c : ascii) : bool := (48 <=? ord c) && (ord c <=? 57).

Definition hex_value (c : ascii) : option N :=
  let n := N_of_ascii c in
  if (48 <=? n)%N && (n <=? 57)%N then Some (n - 48)%N
  else if (97 <=? n)%N && (n <=? 102)%N then Some (n - 87)%N
  else if (65 <=? n)%N && (n <=? 70)%N then Some (n - 55)%N
  else None.

Definition is_high_surrogate (cp : N) : bool :=
  (0xD800 <=? cp)%N && (cp <=? 0xDBFF)%N.
Definition is_low_surrogate (cp : N) : bool :=
  (0xDC00 <=? cp)%N && (cp <=? 0xDFFF)%N.
Definition join_surrogates (h l : N) : N :=
  (0x10000 + (h - 0xD800) * 0x400 + (l - 0xDC00))%N.

(** The UTF-8 bytes of a code point (a lone surrogate is written the same
    way as any other three-byte code point). *)
Definition utf8 (cp : N) : list ascii :=
  let b (n : N) := ascii_of_N n in
  if (cp <? 0x80)%N then [b cp]
  else if (cp <? 0x800)%N then [b (0xC0 + cp / 64); b (0x80 + cp mod 64)]%N
  else if (cp <? 0x10000)%N then
    [b (0xE0 + cp / 4096); b (0x80 + (cp / 64) mod 64); b (0x80 + cp mod 64)]%N
  else
    [b (0xF0 + cp / 262144); b (0x80 + (cp / 4096) mod 64);
     b (0x80 + (cp / 64) mod 64); b (0x80 + cp mod 64)]%N.

Definition emit (cp : N) (acc : list ascii) : list ascii := rev (utf8 cp) ++ acc.

Definition flush (hs : option N) (acc : list ascii) : list ascii :=
  match hs with
  | Some h => emit h acc
  | None => acc
  end.

Definition text_of (acc : list ascii) : string := string_of_list_ascii (rev acc).

(** A finished value goes to the container on top of the stack. *)
Definition push_value (v : jvalue) (stack : list frame) : option pstate :=
  match stack with
  | [] => Some (MDone v, [])
  | FArr items :: rest => Some (MAfter, FArr (v :: items) :: rest)
  | FKey fields k :: rest => Some (MAfter, FObj (dict_set fields k v) :: rest)
  | FObj _ :: _ => None
  end.

(** The closing quote of a string: a key if a dict expects one. *)
Definition end_string (acc : list ascii) (stack : list frame) : option pstate :=
  match stack with
  | FObj fields :: rest => Some (MColon, FKey fields (text_of acc) :: rest)
  | _ => push_value (JStr (text_of acc)) stack
  end.

Definition string_char (acc : list ascii) (c : ascii) (stack : list frame)
  : option pstate :=
  if Ascii.eqb c dquote then end_string acc stack
  else if ord c <? 32 then None
  else Some (MString (c :: acc) None, stack).

Definition escape_char (c : ascii) : option ascii :=
  if Ascii.eqb c dquote then Some dquote
  else if Ascii.eqb c backslash then Some backslash
  else if Ascii.eqb c "/" then Some "/"%char
  else if Ascii.eqb c "b" then Some (chr 8)
  else if Ascii.eqb c "f" then Some (chr 12)
  else if Ascii.eqb c "n" then Some (chr 10)
  else if Ascii.eqb c "r" then Some (chr 13)
  else if Ascii.eqb c "t" then Some (chr 9)
  else None.

(** The end of a [\uXXXX] escape: a high surrogate waits for a low one. *)
Definition end_escape (acc : list ascii) (hs : option N) (cp : N) : mode :=
  match hs with
  | Some h =>
      if is_low_surrogate cp then MString (emit (join_surrogates h cp) acc) None
      else if is_high_surrogate cp then MString (emit h acc) (Some cp)
      else MString (emit cp (emit h acc)) None
  | None =>
      if is_high_surrogate cp then MString acc (Some cp)
      else MString (emit cp acc) None
  end.

Definition num_step (ns : numstate) (c : ascii) : option numstate :=
  let e := Ascii.eqb c "e" || Ascii.eqb c "E" in
  let dot := Ascii.eqb c "." in
  match ns with
  | NMinus => if Ascii.eqb c "0" then Some NZero
              else if is_digit c then Some NInt else None
  | NZero => if dot then Some NDot else if e then Some NExp else None
  | NInt => if is_digit c then Some NInt
            else if dot then Some NDot else if e then Some NExp else None
  | NDot => if is_digit c then Some NFrac else None
  | NFrac => if is_digit c then Some NFrac else if e then Some NExp else None
  | NExp => if Ascii.eqb c "+" || Ascii.eqb c "-" then Some NExpSign
            else if is_digit c then Some NExpDigits else None
  | NExpSign => if is_digit c then Some NExpDigits else None
  | NExpDigits => if is_digit c then Some NExpDigits else None
  end.

Definition num_final (ns : numstate) : bool :=
  match ns with
  | NZero | NInt | NFrac | NExpDigits => true
  | _ => false
  end.

Fixpoint digits_value (acc : Z) (s : string) : Z :=
  match s with
  | EmptyString => acc
  | String c rest => digits_value (10 * acc + Z.of_nat (ord c - 48)) rest
  end.

(** [int(text)] on the text of a JSON integer. *)
Definition parse_int (text : string) : Z :=
  match text with
  | String "-" rest => (- digits_value 0 rest)%Z
  | _ => digits_value 0 text
  end.

Section JsonLoads.
Context (T : FloatText).

Definition number_value (ns : numstate) (acc : list ascii) : jvalue :=
  match ns with
  | NZero | NInt => JInt (parse_int (text_of acc))
  | _ => JFloat (parse_float T (text_of acc))
  end.

(** The first character of a value. *)
Definition start_value (c : ascii) (stack : list frame) : option pstate :=
  if Ascii.eqb c dquote then Some (MString [] None, stack)
  else if Ascii.eqb c "{" then Some (MKeyOrClose, FObj [] :: stack)
  else if Ascii.eqb c "[" then Some (MValueOrClose, FArr [] :: stack)
  else if Ascii.eqb c "n" then Some (MLit "ull" JNull, stack)
  else if Ascii.eqb c "t" then Some (MLit "rue" (JBool true), stack)
  else if Ascii.eqb c "f" then Some (MLit "alse" (JBool false), stack)
  else if Ascii.eqb c "-" then Some (MNum NMinus [c], stack)
  else if Ascii.eqb c "0" then Some (MNum NZero [c], stack)
  else if is_digit c then Some (MNum NInt [c], stack)
  else if Ascii.eqb c "N" then Some (MLit "aN" (JFloat nan), stack)
  else if Ascii.eqb c "I" then Some (MLit "nfinity" (JFloat infinity), stack)
  else None.

(** What may follow a finished value. *)
Definition after_value (st : pstate) (c : ascii) : option pstate :=
  match st with
  | (MDone v, stack) => if is_ws c then Some st else None
  | (MAfter, FArr items :: rest) =>
      if is_ws c then Some st
      else if Ascii.eqb c "," then Some (MValue, FArr items :: rest)
      else if Ascii.eqb c "]" then push_value (JArr (rev items)) rest
      else None
  | (MAfter, FObj fields :: rest) =>
      if is_ws c then Some st
      else if Ascii.eqb c "," then Some (MKey, FObj fields :: rest)
      else if Ascii.eqb c "}" then push_value (JObj fields) rest
      else None
  | _ => None
  end.

Definition json_step (st : pstate) (c : ascii) : option pstate :=
  let (m, stack) := st in
  match m with
  | MValue => if is_ws c then Some st else start_value c stack
  | MValueOrClose =>
      if is_ws c then Some st
      else if Ascii.eqb c "]" then
        match stack with
        | FArr items :: rest => push_value (JArr (rev items)) rest
        | _ => None
        end
      else start_value c stack
  | MKeyOrClose =>
      if is_ws c then Some st
      else if Ascii.eqb c "}" then
        match stack with
        | FObj fields :: rest => push_value (JObj fields) rest
        | _ => None
        end
      else if Ascii.eqb c dquote then Some (MString [] None, stack)
      else None
  | MKey =>
      if is_ws c then Some st
      else if Ascii.eqb c dquote then Some (MString [] None, stack)
      else None
  | MColon =>
      if is_ws c then Some st
      else if Ascii.eqb c ":" then Some (MValue, stack)
      else None
  | MAfter | MDone _ => after_value st c
  | MString acc hs =>
      if Ascii.eqb c backslash then Some (MEscape acc hs, stack)
      else string_char (flush hs acc) c stack
  | MEscape acc hs =>
      if Ascii.eqb c "u" then Some (MHex acc hs 4 0%N, stack)
      else
        match escape_char c with
        | Some x => Some (MString (x :: flush hs acc) None, stack)
        | None => None
        end
  | MHex acc hs todo code =>
      match hex_value c with
      | Some d =>
          let code' := (code * 16 + d)%N in
          match todo with
          | 0 | 1 => Some (end_escape acc hs code', stack)
          | S todo' => Some (MHex acc hs todo' code', stack)
          end
      | None => None
      end
  | MLit rest v =>
      match rest with
      | String c' rest' =>
          if Ascii.eqb c c' then
            match rest' with
            | EmptyString => push_value v stack
            | _ => Some (MLit rest' v, stack)
            end
          else None
      | EmptyString => None
      end
  | MNum ns acc =>
      match num_step ns c with
      | Some ns' => Some (MNum ns' (c :: acc), stack)
      | None =>
          match ns with
          | NMinus =>
              if Ascii.eqb c "I"
              then Some (MLit "nfinity" (JFloat neg_infinity), stack)
              else None
          | _ =>
              if num_final ns then
                match push_value (number_value ns acc) stack with
                | Some st' => after_value st' c
                | None => None
                end
              else None
          end
      end
  end.

Fixpoint json_run (st : pstate) (s : string) : option pstate :=
  match s with
  | EmptyString => Some st
  | String c rest =>
      match json_step st c with
      | Some st' => json_run st' rest
      | None => None
      end
  end.

(** The end of the text: the top-level value must be complete. *)
Definition json_finish (st : pstate) : option jvalue :=
  match st with
  | (MDone v, _) => Some v
  | (MNum ns acc, []) =>
      if num_final ns then Some (number_value ns acc) else None
  | _ => None
  end.

Definition json_loads (s : string) : raises jvalue :=
  match json_run (MValue, []) s with
  | Some st =>
      match json_finish st with
      | Some v => Return v
      | None => Raise ValueError
      end
  | None => Raise ValueError
  end.
End JsonLoads.

(** ** Floats and the [math] module *)

Record Libm : Type := {
  libm_sin : float → float;
  libm_cos : float → float;
  libm_atan2 : float → float → float;
  libm_pow : float → float → float
}.

(** [float(n)] of an [int]: the nearest binary64 value, ties to even. *)
Definition float_of_Z (z : Z) : float :=
  SF2Prim (SpecFloat.binary_normalize prec emax z 0 false).

(** The conversion of a number operand to a C [double]; a [bool] is an
    [int]. *)
Definition as_double (v : jvalue) : raises float :=
  match v with
  | JFloat f => Return f
  | JInt z =>
      let f := float_of_Z z in
      if is_infinity f then Raise OverflowError else Return f
  | JBool b => Return (if b then 1 else 0)%float
  | _ => Raise TypeError
  end.

(** The wrapper of the one-argument functions of [math]: a NaN that the
    argument does not explain, or an infinity from a finite argument, is an
    exception. *)
Definition math_1 (func : float → float) (x : float) : raises float :=
  let r := func x in
  if is_nan r && negb (is_nan x) then Raise ValueError
  else if is_infinity r && is_finite x then Raise ValueError
  else Return r.

(** The same for two arguments. *)
Definition math_2 (func : float → float → float) (x y : float) : raises float :=
  let r := func x y in
  if is_nan r && negb (is_nan x) && negb (is_nan y) then Raise ValueError
  else if is_infinity r && is_finite x && is_finite y then Raise OverflowError
  else Return r.

Definition pi : float := 0x1.921fb54442d18p+1%float.
Definition degToRad : float := (pi / 180)%float.

(** [math.radians] of a value already converted. *)
Definition radians (x : float) : float := (x * degToRad)%float.

Section Math.
Context (L : Libm).

Definition sin (x : float) : raises float := math_1 (libm_sin L) x.
Definition cos (x : float) : raises float := math_1 (libm_cos L) x.
Definition sqrt (x : float) : raises float := math_1 PrimFloat.sqrt x.
Definition atan2 (y x : float) : raises float := math_2 (libm_atan2 L) y x.

(** [x ** 2] on a float: the special cases that [float.__pow__] settles
    itself, then the C library's [pow] on the absolute value, an infinite
    result being an overflow. *)
Definition pow2 (x : float) : raises float :=
  if is_nan x then Return x
  else if is_infinity x then Return (abs x)
  else if (x =? 0)%float then Return 0%float
  else if (abs x =? 1)%float then Return 1%float
  else
    let r := libm_pow L (abs x) 2%float in
    if is_infinity r then Raise OverflowError else Return r.

(** [distance(lat1, lon1, lat2, lon2)]: the haversine formula.  The first
    point comes from the request body, the second is the office. *)
Definition distance (lat1 lon1 : jvalue) (lat2 lon2 : float) : raises float :=
  let R := 6371e3%float in
  let! x1 := as_double lat1 in
  let phi1 := radians x1 in
  let phi2 := radians lat2 in
  let delta_phi := radians (lat2 - x1) in
  let! y1 := as_double lon1 in
  let delta_lambda := radians (lon2 - y1) in
  let! s1 := sin (delta_phi / 2) in
  let! p1 := pow2 s1 in
  let! c1 := cos phi1 in
  let! c2 := cos phi2 in
  let! s2 := sin (delta_lambda / 2) in
  let! p2 := pow2 s2 in
  let a := (p1 + c1 * c2 * p2)%float in
  let! q1 := sqrt a in
  let! q2 := sqrt (1 - a) in
  let! t := atan2 q1 q2 in
  let c := (2 * t)%float in
  Return (R * c)%float.
End Math.

(** ** Configuration *)

Definition RP_ID : string := "localhost".
Definition RP_NAME : string := "Attendance System".
Definition ORIGIN : string := "http://127.0.0.1:5000".

Definition OFFICE_LATITUDE : float := 37.7749%float.
Definition OFFICE_LONGITUDE : float := (-122.4194)%float.
Definition ALLOWED_DISTANCE_METERS : float := 100%float.

(** ** Database models

    Each table is the list of its rows in insertion order.  The engine
    assigns the integer primary key and refuses a row that breaks a
    [unique] constraint; the [timestamp] column of an attendance record is
    filled by the engine's clock and is left out. *)

Module Employee.
Record t : Type := {
  id : Z;
  user_handle : string;
  username : string
}.
End Employee.

Module Credential.
Record t : Type := {
  id : Z;
  credential_id : string;
  public_key : string;
  sign_count : Z;
  employee_id : Z
}.
End Credential.

Module AttendanceRecord.
Record t : Type := {
  id : Z;
  employee_id : Z
}.
End AttendanceRecord.

Record database : Type := {
  employees : list Employee.t;
  credentials : list Credential.t;
  attendance : list AttendanceRecord.t
}.

Definition empty_database : database :=
  {| employees := []; credentials := []; attendance := [] |}.

(** The key of the next row: one more than the largest key in the table. *)
Definition next_id (ids : list Z) : Z := (1 + foldr Z.max 0 ids)%Z.

Definition get_employee_by_username (d : database) (username : string)
  : option Employee.t :=
  List.find (fun e => String.eqb (Employee.username e) username) (employees d).

Definition get_employee_by_user_handle (d : database) (user_handle : string)
  : option Employee.t :=
  List.find (fun e => String.eqb (Employee.user_handle e) user_handle) (employees d).

Definition get_credentials_by_employee_id (d : database) (employee_id : Z)
  : list Credential.t :=
  List.filter (fun c => (Credential.employee_id c =? employee_id)%Z) (credentials d).

(** The first row whose [credential_id] is the given bytes: what the engine
    finds when it compares the column, bytes with bytes. *)
Definition get_credential_by_credential_id (d : database) (credential_id : string)
  : option Credential.t :=
  List.find (fun c => String.eqb (Credential.credential_id c) credential_id)
            (credentials d).

(** A value bound to a query parameter: a [str] or [bytes]. *)
Inductive bind_value : Type :=
| BindStr (s : string)
| BindBytes (b : string).

(** [Credential.query.filter_by(credential_id=value).first()].  The column
    is a [LargeBinary]: its bind processor hands the value to the driver's
    [Binary], which takes bytes and raises a type error on a [str]; no row
    is compared then. *)
Definition query_credential_by_credential_id (d : database) (value : bind_value)
  : raises (option Credential.t) :=
  match value with
  | BindBytes b => Return (get_credential_by_credential_id d b)
  | BindStr _ => Raise TypeError
  end.

(** [db.session.add(Employee(...)); db.session.commit()]: [username] and
    [user_handle] are unique. *)
Definition add_employee (d : database) (username user_handle : string)
  : raises (database * Employee.t) :=
  if existsb (fun e => String.eqb (Employee.username e) username
                       || String.eqb (Employee.user_handle e) user_handle)
             (employees d)
  then Raise IntegrityError
  else
    let e := {| Employee.id := next_id (map Employee.id (employees d));
                Employee.user_handle := user_handle;
                Employee.username := username |} in
    Return ({| employees := employees d ++ [e];
               credentials := credentials d;
               attendance := attendance d |}, e).

(** [db.session.add(Credential(...)); db.session.commit()]: [credential_id]
    is unique. *)
Definition add_credential (d : database)
    (credential_id public_key : string) (sign_count employee_id : Z)
  : raises database :=
  if existsb (fun c => String.eqb (Credential.credential_id c) credential_id)
             (credentials d)
  then Raise IntegrityError
  else
    let c := {| Credential.id := next_id (map Credential.id (credentials d));
                Credential.credential_id := credential_id;
                Credential.public_key := public_key;
                Credential.sign_count := sign_count;
                Credential.employee_id := employee_id |} in
    Return {| employees := employees d;
              credentials := credentials d ++ [c];
              attendance := attendance d |}.

Definition with_sign_count (c : Credential.t) (n : Z) : Credential.t :=
  {| Credential.id := Credential.id c;
     Credential.credential_id := Credential.credential_id c;
     Credential.public_key := Credential.public_key c;
     Credential.sign_count := n;
     Credential.employee_id := Credential.employee_id c |}.

(** The row that [.first()] returned, with a new counter. *)
Fixpoint update_first_credential (credential_id : string) (n : Z)
    (rows : list Credential.t) : list Credential.t :=
  match rows with
  | [] => []
  | c :: rest =>
      if String.eqb (Credential.credential_id c) credential_id
      then with_sign_count c n :: rest
      else c :: update_first_credential credential_id n rest
  end.

(** [db_credential.sign_count = n; db.session.commit()] *)
Definition set_sign_count (d : database) (credential_id : string) (n : Z)
  : database :=
  {| employees := employees d;
     credentials := update_first_credential credential_id n (credentials d);
     attendance := attendance d |}.

(** [db.session.add(AttendanceRecord(employee_id=...)); db.session.commit()] *)
Definition add_attendance (d : database) (employee_id : Z) : database :=
  let r := {| AttendanceRecord.id := next_id (map AttendanceRecord.id (attendance d));
              AttendanceRecord.employee_id := employee_id |} in
  {| employees := employees d;
     credentials := credentials d;
     attendance := attendance d ++ [r] |}.

(** ** The [webauthn] package *)

Module VerifiedRegistration.
Record t : Type := {
  credential_id : string;
  credential_public_key : string;
  sign_count : Z
}.
End VerifiedRegistration.

Module AuthenticationCredential.
Record t : Type := {
  (** [id], a [str]: the base64url text of the credential id *)
  id : string;
  (** [raw_id], the credential id as bytes *)
  raw_id : string;
  (** [response.user_handle], [None] when the assertion has none *)
  user_handle : option string;
  (** the rest of the parsed assertion *)
  response : jvalue
}.
End AuthenticationCredential.

(** The calls of the package that verify; [None] is a raised exception.
    The arguments are those of the call sites, in their order:
    - [verify_registration_response(credential, expected_challenge,
      expected_origin, expected_rp_id)], [credential] being the request body
      as [RegistrationCredential.parse_raw] reads it;
    - the validation that [AuthenticationCredential.parse_raw] runs on the
      decoded JSON text;
    - [verify_authentication_response(credential, expected_challenge,
      expected_origin, expected_rp_id, credential_public_key,
      credential_current_sign_count)], which yields [new_sign_count]. *)
Record WebAuthn : Type := {
  verify_registration_response :
    jvalue → string → string → string → option VerifiedRegistration.t;
  validate_authentication_credential :
    jvalue → option AuthenticationCredential.t;
  verify_authentication_response :
    AuthenticationCredential.t → string → string → string → string → Z → option Z
}.

(** ** Application state and responses *)

Record state : Type := {
  session : gmap string string;
  db : database
}.

Inductive response : Type :=
| RegistrationOptions (challenge rp_id rp_name user_id user_name : string)
| AuthenticationOptions (challenge rp_id : string) (allow_credentials : list string)
| Success (username : string)
| UsernameRequired                (* 'Username is required' *)
| UsernameExists                  (* 'Username already exists' *)
| MissingSessionData              (* 'Missing required session data' *)
| RegistrationFailed              (* 'Registration failed: ...' *)
| UserNotFound                    (* 'User not found' *)
| NoCredentials                   (* 'No credentials found for this user' *)
| CredentialAndLocationRequired   (* 'Credential and location are required' *)
| LatLonRequired                  (* 'Latitude and longitude are required' *)
| OutOfRange (dist : float)       (* 'You are ... meters away ...' *)
| MissingChallenge                (* 'Missing challenge from session' *)
| CredentialNotFound              (* 'Credential not found' *)
| AuthenticationFailed (e : pyexn) (* 'Authentication failed: ...' *)
| InternalServerError (e : pyexn). (* an exception that no handler catches *)

Definition status_code (r : response) : Z :=
  match r with
  | RegistrationOptions _ _ _ _ _ | AuthenticationOptions _ _ _ | Success _ => 200
  | UsernameRequired | UsernameExists | MissingSessionData | RegistrationFailed
  | CredentialAndLocationRequired | LatLonRequired | MissingChallenge
  | AuthenticationFailed _ => 400
  | OutOfRange _ => 403
  | UserNotFound | NoCredentials | CredentialNotFound => 404
  | InternalServerError _ => 500
  end.

Definition is_success (r : response) : bool :=
  match r with
  | Success _ => true
  | _ => false
  end.

(** Truthiness of [session.get(key)] and of a [username] field. *)
Definition str_truthy (o : option string) : bool :=
  match o with
  | Some s => negb (String.eqb s "")
  | None => false
  end.

(** [b.decode('utf-8')]: the bytes must be well-formed UTF-8. *)
Fixpoint utf8_valid (s : string) : bool :=
  let cont (c : ascii) := (128 <=? ord c) && (ord c <=? 191) in
  match s with
  | EmptyString => true
  | String b0 rest =>
      let n := ord b0 in
      if n <? 128 then utf8_valid rest
      else if (194 <=? n) && (n <=? 223) then
        match rest with
        | String b1 rest1 => cont b1 && utf8_valid rest1
        | _ => false
        end
      else if (224 <=? n) && (n <=? 239) then
        match rest with
        | String b1 (String b2 rest2) =>
            cont b1 && cont b2
            && (if n =? 224 then 160 <=? ord b1 else true)
            && (if n =? 237 then ord b1 <=? 159 else true)
            && utf8_valid rest2
        | _ => false
        end
      else if (240 <=? n) && (n <=? 244) then
        match rest with
        | String b1 (String b2 (String b3 rest3)) =>
            cont b1 && cont b2 && cont b3
            && (if n =? 240 then 144 <=? ord b1 else true)
            && (if n =? 244 then ord b1 <=? 143 else true)
            && utf8_valid rest3
        | _ => false
        end
      else false
  end.

Definition decode_utf8 (b : string) : raises string :=
  if utf8_valid b then Return b else Raise ValueError.

Definition or_raise {A : Type} (e : pyexn) (o : option A) : raises A :=
  match o with
  | Some a => Return a
  | None => Raise e
  end.

(** ** The handlers

    A handler takes the state before the request and the decoded request
    body, and gives the state after the response and the response.  The
    [username] field of the two [start] requests is a string or is absent.
    The random values of a [start] request (the UUID and the challenge
    that the package draws) are arguments: a [start] handler is modelled for
    a call of the package that returns its options. *)

Section Handlers.
Context (L : Libm) (T : FloatText) (W : WebAuthn).

Definition with_session (st : state) (s : gmap string string) : state :=
  {| session := s; db := db st |}.

(** [/register/start] *)
Definition register_start (uuid4 challenge : string)
    (st : state) (username : option string) : state * response :=
  if negb (str_truthy username) then (st, UsernameRequired)
  else
    let username := default EmptyString username in
    match get_employee_by_username (db st) username with
    | Some _ => (st, UsernameExists)
    | None =>
        let user_handle := uuid4 in
        (with_session st
           (<["user_handle" := user_handle]>
              (<["username" := username]>
                 (<["challenge" := challenge]> (session st)))),
         RegistrationOptions challenge RP_ID RP_NAME user_handle username)
    end.

(** [/register/finish] *)
Definition register_finish (st : state) (credential : jvalue) : state * response :=
  let challenge := session st !! "challenge" in
  let username := session st !! "username" in
  let user_handle := session st !! "user_handle" in
  if negb (truthy credential && str_truthy challenge
           && str_truthy username && str_truthy user_handle)
  then (st, MissingSessionData)
  else
    let challenge := default EmptyString challenge in
    let username := default EmptyString username in
    let user_handle := default EmptyString user_handle in
    match verify_registration_response W credential challenge ORIGIN RP_ID with
    | None => (st, RegistrationFailed)
    | Some registration_verification =>
        match add_employee (db st) username user_handle with
        | Raise e => (st, InternalServerError e)
        | Return (d1, new_employee) =>
            match add_credential d1
                    (VerifiedRegistration.credential_id registration_verification)
                    (VerifiedRegistration.credential_public_key registration_verification)
                    (VerifiedRegistration.sign_count registration_verification)
                    (Employee.id new_employee) with
            | Raise e => ({| session := session st; db := d1 |}, InternalServerError e)
            | Return d2 =>
                ({| session :=
                      delete "user_handle"
                        (delete "username" (delete "challenge" (session st)));
                    db := d2 |},
                 Success username)
            end
        end
    end.

(** [/login/start] *)
Definition login_start (challenge : string)
    (st : state) (username : option string) : state * response :=
  if negb (str_truthy username) then (st, UsernameRequired)
  else
    let username := default EmptyString username in
    match get_employee_by_username (db st) username with
    | None => (st, UserNotFound)
    | Some employee =>
        match get_credentials_by_employee_id (db st) (Employee.id employee) with
        | [] => (st, NoCredentials)
        | credentials =>
            (with_session st (<["challenge" := challenge]> (session st)),
             AuthenticationOptions challenge RP_ID
               (map Credential.credential_id credentials))
        end
    end.

(** [AuthenticationCredential.parse_raw] on [str(credential)] with every
    single quote replaced by a double quote. *)
Definition parse_raw_credential (credential : jvalue)
  : raises AuthenticationCredential.t :=
  let text := replace_char squote dquote (py_str T credential) in
  let! obj := json_loads T text in
  or_raise ValidationError (validate_authentication_credential W obj).

(** The body of the [try] block of [/login/finish]. *)
Definition login_finish_try (st : state) (credential : jvalue) (challenge : string)
  : raises (state * response) :=
  let! auth_credential := parse_raw_credential credential in
  let! user_handle_bytes :=
    or_raise AttributeError (AuthenticationCredential.user_handle auth_credential) in
  let! user_handle := decode_utf8 user_handle_bytes in
  match get_employee_by_user_handle (db st) user_handle with
  | None => Return (st, UserNotFound)
  | Some employee =>
      let! found :=
        query_credential_by_credential_id (db st)
          (BindStr (AuthenticationCredential.id auth_credential)) in
      match found with
      | None => Return (st, CredentialNotFound)
      | Some db_credential =>
          let! new_sign_count :=
            or_raise ValueError
              (verify_authentication_response W auth_credential challenge
                 ORIGIN RP_ID
                 (Credential.public_key db_credential)
                 (Credential.sign_count db_credential)) in
          let d1 := set_sign_count (db st)
                      (Credential.credential_id db_credential) new_sign_count in
          let d2 := add_attendance d1 (Employee.id employee) in
          Return ({| session := delete "challenge" (session st); db := d2 |},
                  Success (Employee.username employee))
      end
  end.

(** The geofence of [/login/finish]: the distance to the office and whether
    it exceeds the allowed distance. *)
Definition geofence (lat lon : jvalue) : raises (float * bool) :=
  let! dist := distance L lat lon OFFICE_LATITUDE OFFICE_LONGITUDE in
  Return (dist, (ALLOWED_DISTANCE_METERS <? dist)%float).

(** [/login/finish] *)
Definition login_finish (st : state) (data : jvalue) : state * response :=
  match py_get data "credential", py_get data "location" with
  | Raise e, _ | _, Raise e => (st, InternalServerError e)
  | Return credential, Return location =>
      if negb (truthy credential) || negb (truthy location)
      then (st, CredentialAndLocationRequired)
      else
        match py_get location "latitude", py_get location "longitude" with
        | Raise e, _ | _, Raise e => (st, InternalServerError e)
        | Return lat, Return lon =>
            if negb (truthy lat) || negb (truthy lon) then (st, LatLonRequired)
            else
              match geofence lat lon with
              | Raise e => (st, InternalServerError e)
              | Return (dist, true) => (st, OutOfRange dist)
              | Return (dist, false) =>
                  let challenge := session st !! "challenge" in
                  if negb (str_truthy challenge) then (st, MissingChallenge)
                  else
                    match login_finish_try st credential
                            (default EmptyString challenge) with
                    | Return r => r
                    | Raise e => (st, AuthenticationFailed e)
                    end
              end
        end
  end.

End Handlers.

(** ** The server: one session per actor, one database *)

Record server : Type := {
  sessions : gmap nat (gmap string string);
  store : database
}.

Inductive request : Type :=
| RegisterStart (uuid4 challenge : string) (username : option string)
| RegisterFinish (credential : jvalue)
| LoginStart (challenge : string) (username : option string)
| LoginFinish (data : jvalue).

Definition is_finish (req : request) : bool :=
  match req with
  | RegisterFinish _ | LoginFinish _ => true
  | _ => false
  end.

Section Server.
Context (L : Libm) (T : FloatText) (W : WebAuthn).

Definition handle (st : state) (req : request) : state * response :=
  match req with
  | RegisterStart uuid4 challenge username =>
      register_start uuid4 challenge st username
  | RegisterFinish credential => register_finish W st credential
  | LoginStart challenge username => login_start challenge st username
  | LoginFinish data => login_finish L T W st data
  end.

(** A request of [actor]: the handler sees the actor's session only. *)
Definition serve (sv : server) (actor : nat) (req : request) : server * response :=
  let st := {| session := default ∅ (sessions sv !! actor); db := store sv |} in
  let (st', r) := handle st req in
  ({| sessions := <[actor := session st']> (sessions sv); store := db st' |}, r).

Fixpoint serve_all (sv : server) (reqs : list (nat * request)) : server :=
  match reqs with
  | [] => sv
  | (actor, req) :: rest => serve_all (fst (serve sv actor req)) rest
  end.

End Server.

(** ** Properties to state *)

(** Every credential row belongs to an employee row. *)
Definition credentials_owned (d : database) : Prop :=
  ∀ c, c ∈ credentials d →
       ∃ e, e ∈ employees d ∧ Employee.id e = Credential.employee_id c.

(** A number that is zero: [0], [0.0] or [-0.0]. *)
Definition is_zero (v : jvalue) : Prop :=
  v = JInt 0 ∨ ∃ f, v = JFloat f ∧ (f =? 0)%float = true.

(** *** The geofence gate, as the code has it and as the specification
    words it *)

Inductive gate_outcome : Type :=
| GateDecision (within : bool) (dist : float)
| GateInvalidCoordinates
| GateException (e : pyexn).

(** The gate of [/login/finish]. *)
Definition within_radius (L : Libm) (lat lon : jvalue) : gate_outcome :=
  match geofence L lat lon with
  | Return (dist, outside) => GateDecision (negb outside) dist
  | Raise e => GateException e
  end.

Definition out_of_range (lat lon : float) : bool :=
  (90 <? abs lat)%float || (180 <? abs lon)%float.

(** The gate as the specification words it: latitude and longitude are
    validated first. *)
Definition WithinRadius_spec (L : Libm) (lat lon : float) : gate_outcome :=
  if out_of_range lat lon then GateInvalidCoordinates
  else within_radius L (JFloat lat) (JFloat lon).

(** ** Instances for the examples

    A C library of small-angle approximations (exact at the office itself),
    float texts that the examples never need, and a verifier that stands
    for an authenticator: a response names the challenge it answers, and a
    counter is accepted when it grew, or when it and the stored one are
    zero. *)

Definition small_angle_libm : Libm :=
  {| libm_sin := fun x => x;
     libm_cos := fun _ => 1%float;
     libm_atan2 := fun y x => (y / x)%float;
     libm_pow := fun x _ => (x * x)%float |}.

Definition no_float_text : FloatText :=
  {| repr_float := fun _ => "nan"; parse_float := fun _ => nan |}.

Definition field (k : string) (v : jvalue) : jvalue :=
  match v with
  | JObj fields => dict_get k fields
  | _ => JNull
  end.

Definition toy_webauthn : WebAuthn :=
  {| verify_registration_response := fun credential challenge _ _ =>
       match field "challenge" credential, field "id" credential,
             field "publicKey" credential with
       | JStr c, JStr i, JStr pk =>
           if String.eqb c challenge
           then Some {| VerifiedRegistration.credential_id := i;
                        VerifiedRegistration.credential_public_key := pk;
                        VerifiedRegistration.sign_count := 0 |}
           else None
       | _, _, _ => None
       end;
     validate_authentication_credential := fun obj =>
       match field "id" obj, field "userHandle" obj with
       | JStr i, JStr h =>
           Some {| AuthenticationCredential.id := i;
                   AuthenticationCredential.raw_id := i;
                   AuthenticationCredential.user_handle := Some h;
                   AuthenticationCredential.response := obj |}
       | _, _ => None
       end;
     verify_authentication_response := fun a challenge _ _ _ current =>
       match field "challenge" (AuthenticationCredential.response a),
             field "signCount" (AuthenticationCredential.response a) with
       | JStr c, JInt n =>
           if String.eqb c challenge
              && ((current <? n)%Z || ((n =? 0)%Z && (current =? 0)%Z))
           then Some n else None
       | _, _ => None
       end |}.

Definition empty_state : state := {| session := ∅; db := empty_database |}.

(** The request bodies of one registration and one login of alice. *)
Definition alice_attestation (challenge : string) : jvalue :=
  JObj [("id", JStr "cred-1"); ("publicKey", JStr "pk-1");
        ("challenge", JStr challenge)].

Definition alice_assertion (challenge : string) (count : Z) : jvalue :=
  JObj [("id", JStr "cred-1"); ("userHandle", JStr "handle-1");
        ("challenge", JStr challenge); ("signCount", JInt count)].

Definition at_office : jvalue :=
  JObj [("latitude", JFloat OFFICE_LATITUDE); ("longitude", JFloat OFFICE_LONGITUDE)].

Definition login_body (credential location : jvalue) : jvalue :=
  JObj [("credential", credential); ("location", location)].

(** The state after alice started a registration. *)
Definition alice_pending : state :=
  fst (register_start "handle-1" "challenge-1" empty_state (Some "alice")).

(** The state after alice registered. *)
Definition alice_registered : state :=
  fst (register_finish toy_webauthn alice_pending (alice_attestation "challenge-1")).

(** The state after alice started a login. *)
Definition alice_login_pending : state :=
  fst (login_start "challenge-2" alice_registered (Some "alice")).

(** *** The outcomes of the two [finish] handlers *)

(** The outcomes of [/register/finish]. *)
Inductive register_finish_outcome (W : WebAuthn) (st : state) (credential : jvalue)
  : state → response → Prop :=
| RfMissing :
    (truthy credential && str_truthy (session st !! "challenge")
     && str_truthy (session st !! "username")
     && str_truthy (session st !! "user_handle")) = false →
    register_finish_outcome W st credential st MissingSessionData
| RfRejected challenge username user_handle :
    truthy credential = true →
    session st !! "challenge" = Some challenge →
    session st !! "username" = Some username →
    session st !! "user_handle" = Some user_handle →
    verify_registration_response W credential challenge ORIGIN RP_ID = None →
    register_finish_outcome W st credential st RegistrationFailed
| RfEmployeeRefused challenge username user_handle v :
    truthy credential = true →
    session st !! "challenge" = Some challenge →
    session st !! "username" = Some username →
    session st !! "user_handle" = Some user_handle →
    verify_registration_response W credential challenge ORIGIN RP_ID = Some v →
    add_employee (db st) username user_handle = Raise IntegrityError →
    register_finish_outcome W st credential st (InternalServerError IntegrityError)
| RfCredentialRefused challenge username user_handle v d1 e :
    truthy credential = true →
    session st !! "challenge" = Some challenge →
    session st !! "username" = Some username →
    session st !! "user_handle" = Some user_handle →
    verify_registration_response W credential challenge ORIGIN RP_ID = Some v →
    add_employee (db st) username user_handle = Return (d1, e) →
    add_credential d1 (VerifiedRegistration.credential_id v)
      (VerifiedRegistration.credential_public_key v)
      (VerifiedRegistration.sign_count v) (Employee.id e)
    = Raise IntegrityError →
    register_finish_outcome W st credential
      {| session := session st; db := d1 |} (InternalServerError IntegrityError)
| RfSuccess challenge username user_handle v d1 e d2 :
    truthy credential = true →
    session st !! "challenge" = Some challenge →
    session st !! "username" = Some username →
    session st !! "user_handle" = Some user_handle →
    username ≠ EmptyString →
    verify_registration_response W credential challenge ORIGIN RP_ID = Some v →
    add_employee (db st) username user_handle = Return (d1, e) →
    add_credential d1 (VerifiedRegistration.credential_id v)
      (VerifiedRegistration.credential_public_key v)
      (VerifiedRegistration.sign_count v) (Employee.id e)
    = Return d2 →
    register_finish_outcome W st credential
      {| session :=
           delete "user_handle" (delete "username" (delete "challenge" (session st)));
         db := d2 |}
      (Success username).

(** A body of [/login/finish] that passes the input validation: a dict with
    a truthy [credential] and a [location] dict with truthy [latitude] and
    [longitude]. *)
Definition login_request (data credential lat lon : jvalue) : Prop :=
  ∃ fields loc,
    data = JObj fields
    ∧ credential = dict_get "credential" fields
    ∧ truthy credential = true
    ∧ dict_get "location" fields = JObj loc
    ∧ loc ≠ []
    ∧ lat = dict_get "latitude" loc
    ∧ lon = dict_get "longitude" loc
    ∧ truthy lat = true
    ∧ truthy lon = true.

(** The outcomes of [/login/finish]. *)
Inductive login_finish_outcome (L : Libm) (T : FloatText) (W : WebAuthn)
    (st : state) (data : jvalue) : state → response → Prop :=
| LfInvalid r :
    (∀ credential lat lon, ¬ login_request data credential lat lon) →
    r = InternalServerError AttributeError
    ∨ r = CredentialAndLocationRequired ∨ r = LatLonRequired →
    login_finish_outcome L T W st data st r
| LfGeofenceError credential lat lon e :
    login_request data credential lat lon →
    geofence L lat lon = Raise e →
    login_finish_outcome L T W st data st (InternalServerError e)
| LfOutOfRange credential lat lon dist :
    login_request data credential lat lon →
    geofence L lat lon = Return (dist, true) →
    login_finish_outcome L T W st data st (OutOfRange dist)
| LfMissingChallenge credential lat lon dist :
    login_request data credential lat lon →
    geofence L lat lon = Return (dist, false) →
    str_truthy (session st !! "challenge") = false →
    login_finish_outcome L T W st data st MissingChallenge
| LfFailed credential lat lon dist challenge e :
    login_request data credential lat lon →
    geofence L lat lon = Return (dist, false) →
    session st !! "challenge" = Some challenge →
    challenge ≠ EmptyString →
    login_finish_try T W st credential challenge = Raise e →
    login_finish_outcome L T W st data st (AuthenticationFailed e)
| LfTried credential lat lon dist challenge st' r :
    login_request data credential lat lon →
    geofence L lat lon = Return (dist, false) →
    session st !! "challenge" = Some challenge →
    challenge ≠ EmptyString →
    login_finish_try T W st credential challenge = Return (st', r) →
    login_finish_outcome L T W st data st' r.

(** What a [finish] handler does to the pending challenge: a success
    removes it, anything else leaves the session as it was. *)
Definition consumed_on_success_only (st st' : state) (r : response) : Prop :=
  if is_success r then session st' !! "challenge" = None
  else session st' = session st.

(** One degree of latitude north of the office, about 111 km away. *)
Definition north_of_office : jvalue :=
  JObj [("latitude", JFloat (OFFICE_LATITUDE + 1)); ("longitude", JFloat OFFICE_LONGITUDE)].

(** The handlers with the instances of the examples. *)
Definition toy_login_finish : state → jvalue → state * response :=
  login_finish small_angle_libm no_float_text toy_webauthn.

Definition toy_register_finish : state → jvalue → state * response :=
  register_finish toy_webauthn.

(** The response to a [finish] request whose ceremony state is gone. *)
Definition missing_state_response (req : request) : response :=
  match req with
  | RegisterFinish _ => MissingSessionData
  | _ => MissingChallenge
  end.

(** What [/register/finish] wrote, by response: both rows on success; no row
    on a failure before or at the first commit; the employee row alone when
    the second commit is refused. *)
Inductive registration_writes (W : WebAuthn) (st : state) (credential : jvalue)
    (st' : state) : response → Prop :=
| WroteBoth username e c :
    employees (db st') = employees (db st) ++ [e] →
    credentials (db st') = credentials (db st) ++ [c] →
    attendance (db st') = attendance (db st) →
    Employee.username e = username →
    Credential.employee_id c = Employee.id e →
    registration_writes W st credential st' (Success username)
| WroteNothing r :
    is_success r = false →
    st' = st →
    registration_writes W st credential st' r
| WroteEmployeeOnly challenge e v :
    employees (db st') = employees (db st) ++ [e] →
    credentials (db st') = credentials (db st) →
    attendance (db st') = attendance (db st) →
    session st' = session st →
    session st !! "challenge" = Some challenge →
    verify_registration_response W credential challenge ORIGIN RP_ID = Some v →
    is_Some (get_credential_by_credential_id (db st)
               (VerifiedRegistration.credential_id v)) →
    registration_writes W st credential st' (InternalServerError IntegrityError).

(** A registration body for a given credential id. *)
Definition attestation_of (credential_id challenge : string) : jvalue :=
  JObj [("id", JStr credential_id); ("publicKey", JStr "pk-0");
        ("challenge", JStr challenge)].

(** The state after bob registered the credential [cred-1]. *)
Definition bob_registered : state :=
  fst (toy_register_finish
         (fst (register_start "handle-0" "challenge-0" empty_state (Some "bob")))
         (attestation_of "cred-1" "challenge-0")).

(** The state after alice then started her own registration. *)
Definition alice_pending_after_bob : state :=
  fst (register_start "handle-1" "challenge-1" bob_registered (Some "alice")).

(** Alice's registration is pending in her session while another actor has
    registered the user name [alice]. *)
Definition alice_taken : state :=
  {| session := session alice_pending_after_bob;
     db := db (fst (toy_register_finish alice_pending_after_bob
                      (attestation_of "cred-2" "challenge-1"))) |}.

Definition alice_row : Employee.t :=
  {| Employee.id := 2; Employee.user_handle := "handle-1";
     Employee.username := "alice" |}.

(** *** The text handed to [parse_raw] *)





(** A decoded assertion that the verifier accepts for the stored credential
    with its raw id and for the pending challenge. *)
Definition valid_assertion (W : WebAuthn) (st : state) (credential : jvalue) : Prop :=
  ∃ a challenge dbc n,
    validate_authentication_credential W credential = Some a
    ∧ session st !! "challenge" = Some challenge
    ∧ get_credential_by_credential_id (db st) (AuthenticationCredential.raw_id a)
      = Some dbc
    ∧ verify_authentication_response W a challenge ORIGIN RP_ID
        (Credential.public_key dbc) (Credential.sign_count dbc) = Some n.


(** *** Notions for the further properties *)

(** A JSON value that Python converts to a float: a number or a [bool]. *)
Definition is_number (v : jvalue) : bool :=
  match v with
  | JInt _ | JFloat _ | JBool _ => true
  | _ => false
  end.

(** Every attendance row belongs to an employee row. *)
Definition attendance_owned (d : database) : Prop :=
  ∀ r, r ∈ attendance d →
       ∃ e, e ∈ employees d ∧ Employee.id e = AttendanceRecord.employee_id r.

(** No two credential rows belong to the same employee. *)
Definition one_credential_each (d : database) : Prop :=
  NoDup (map Credential.employee_id (credentials d)).

(** The server before any request. *)
Definition empty_server : server := {| sessions := ∅; store := empty_database |}.

(** What a handler sees of the server when [actor] sends a request. *)
Definition state_of (sv : server) (actor : nat) : state :=
  {| session := default ∅ (sessions sv !! actor); db := store sv |}.

(** The C library maps a NaN to a NaN where [distance] needs it. *)
Definition nan_propagating (L : Libm) : Prop :=
  libm_sin L nan = nan ∧ libm_atan2 L nan nan = nan.


(** *** Credentials that survive [str()] and the replacement of quotes *)

(** A printable ASCII character other than a quote or a backslash: [repr]
    writes it as it is. *)
Definition plain_char (c : ascii) : bool :=
  negb (Ascii.eqb c squote) && negb (Ascii.eqb c dquote)
  && negb (Ascii.eqb c backslash) && (32 <=? ord c) && (ord c <? 127).

Fixpoint plain_text (s : string) : bool :=
  match s with
  | EmptyString => true
  | String c rest => plain_char c && plain_text rest
  end.

(** The keys of a dict: each one once. *)
Fixpoint distinct (keys : list string) : bool :=
  match keys with
  | [] => true
  | k :: rest => negb (existsb (String.eqb k) rest) && distinct rest
  end.

(** Strings, lists and dicts made of plain text only. *)
Fixpoint plain_value (v : jvalue) : bool :=
  match v with
  | JStr s => plain_text s
  | JArr items => forallb plain_value items
  | JObj fields =>
      forallb (fun kv => plain_text (fst kv) && plain_value (snd kv)) fields
      && distinct (map fst fields)
  | _ => false
  end.

(** The modes in which the decoder expects a value, or a key. *)
Definition value_mode (m : mode) : bool :=
  match m with
  | MValue | MValueOrClose => true
  | _ => false
  end.

Definition key_mode (m : mode) : bool :=
  match m with
  | MKeyOrClose | MKey => true
  | _ => false
  end.

(** A stack whose top takes a value: not a dict that awaits a key. *)
Definition value_slot (stack : list frame) : bool :=
  match stack with
  | FObj _ :: _ => false
  | _ => true
  end.

(** The text that [parse_raw] reads for a credential that is not a [str]. *)
Definition raw_text (T : FloatText) (v : jvalue) : string :=
  replace_char squote dquote (py_repr T v).

Definition raw_field (T : FloatText) (kv : string * jvalue) : string :=
  replace_char squote dquote (repr_str (fst kv)) +:+ ": " +:+ raw_text T (snd kv).

(** The decoder reads the text of a plain value back as that value, wherever
    a value may stand. *)
Definition reads_back (T : FloatText) (v : jvalue) : Prop :=
  plain_value v = true →
  ∀ m stack, value_mode m = true → value_slot stack = true →
    json_run T (m, stack) (raw_text T v) = push_value v stack.

(** An assertion as a browser sends it, for alice's credential. *)
Definition browser_assertion : jvalue :=
  JObj [("id", JStr "cred-1"); ("rawId", JStr "cred-1");
        ("type", JStr "public-key");
        ("response",
         JObj [("authenticatorData", JStr "SZYN5YgOjGh0NBcPZHZgW4_krrmihjLHmVzzuoMdl2MFAAAAAQ");
               ("signature", JStr "MEUCIQDx");
               ("userHandle", JStr "handle-1")]);
        ("clientExtensionResults", JObj []);
        ("transports", JArr [JStr "internal"; JStr "hybrid"])].

(** A value with a [None], [True] or [False] that the decoder reaches:
    whatever stands before it, in the order of the text, is plain. *)
Inductive spoiled : jvalue → Prop :=
| SpoiledNull : spoiled JNull
| SpoiledBool (b : bool) : spoiled (JBool b)
| SpoiledItem (before : list jvalue) (v : jvalue) (after : list jvalue) :
    forallb plain_value before = true →
    spoiled v →
    spoiled (JArr (before ++ v :: after))
| SpoiledField (before : list (string * jvalue)) (k : string) (v : jvalue)
    (after : list (string * jvalue)) :
    forallb (fun kv => plain_text (fst kv) && plain_value (snd kv)) before = true →
    plain_text k = true →
    distinct (map fst (before ++ [(k, v)])) = true →
    spoiled v →
    spoiled (JObj (before ++ (k, v) :: after)).

(** An assertion of a browser for a credential that has no user handle. *)
Definition browser_assertion_without_handle : jvalue :=
  JObj [("id", JStr "cred-1"); ("rawId", JStr "cred-1");
        ("type", JStr "public-key");
        ("response",
         JObj [("authenticatorData", JStr "SZYN5YgOjGh0NBcPZHZgW4_krrmihjLHmVzzuoMdl2MFAAAAAQ");
               ("signature", JStr "MEUCIQDx");
               ("userHandle", JNull)]);
        ("clientExtensionResults", JObj [])].


(** The [unique] columns and the primary keys: no value twice. *)
Definition unique_rows (d : database) : Prop :=
  NoDup (map Employee.id (employees d))
  ∧ NoDup (map Employee.username (employees d))
  ∧ NoDup (map Employee.user_handle (employees d))
  ∧ NoDup (map Credential.id (credentials d))
  ∧ NoDup (map Credential.credential_id (credentials d))
  ∧ NoDup (map AttendanceRecord.id (attendance d)).


(** *** Values without a quote character *)


(** A text without a single or a double quote. *)
Definition quote_free_text (s : string) : bool :=
  negb (contains_char squote s) && negb (contains_char dquote s).

Definition quote_free_field (quote_free : jvalue → bool) (kv : string * jvalue)
  : bool :=
  quote_free_text (fst kv) && quote_free (snd kv).

(** No key and no string of the value has a quote character. *)
Fixpoint quote_free (v : jvalue) : bool :=
  match v with
  | JStr s => quote_free_text s
  | JArr items => forallb quote_free items
  | JObj fields => forallb (quote_free_field quote_free) fields
  | _ => true
  end.






(** * Properties *)

(** ** What a handler returns, case by case *)

Lemma str_truthy_Some (o : option string) :
  str_truthy o = true → ∃ s, o = Some s ∧ s ≠ EmptyString.
Proof.
  destruct o as [s|]; simpl; [|done].
  intros H. exists s. split; [done|]. intros ->. done.
Qed.

Lemma add_employee_cases d username user_handle :
  (add_employee d username user_handle = Raise IntegrityError
   ∧ existsb (fun e => String.eqb (Employee.username e) username
                       || String.eqb (Employee.user_handle e) user_handle)
             (employees d) = true)
  ∨ ∃ e, add_employee d username user_handle
         = Return ({| employees := employees d ++ [e];
                      credentials := credentials d;
                      attendance := attendance d |}, e)
         ∧ Employee.id e = next_id (map Employee.id (employees d))
         ∧ Employee.username e = username
         ∧ Employee.user_handle e = user_handle
         ∧ existsb (fun e => String.eqb (Employee.username e) username
                             || String.eqb (Employee.user_handle e) user_handle)
                   (employees d) = false.
Proof.
  unfold add_employee. destruct (existsb _ _); [by left|].
  right. eexists. split; [done|]. done.
Qed.

Lemma add_credential_cases d credential_id public_key sign_count employee_id :
  (add_credential d credential_id public_key sign_count employee_id
   = Raise IntegrityError
   ∧ existsb (fun c => String.eqb (Credential.credential_id c) credential_id)
             (credentials d) = true)
  ∨ ∃ c, add_credential d credential_id public_key sign_count employee_id
         = Return {| employees := employees d;
                     credentials := credentials d ++ [c];
                     attendance := attendance d |}
         ∧ Credential.credential_id c = credential_id
         ∧ Credential.public_key c = public_key
         ∧ Credential.sign_count c = sign_count
         ∧ Credential.employee_id c = employee_id
         ∧ existsb (fun c => String.eqb (Credential.credential_id c) credential_id)
                   (credentials d) = false.
Proof.
  unfold add_credential. destruct (existsb _ _); [by left|].
  right. eexists. split; [done|]. done.
Qed.


Lemma register_finish_cases W st credential :
  register_finish_outcome W st credential
    (fst (register_finish W st credential)) (snd (register_finish W st credential)).
Proof.
  unfold register_finish.
  destruct (truthy credential && str_truthy (session st !! "challenge")
            && str_truthy (session st !! "username")
            && str_truthy (session st !! "user_handle")) eqn:Hall; simpl;
    [|by constructor].
  apply andb_prop in Hall as [Hall Hh]. apply andb_prop in Hall as [Hall Hu].
  apply andb_prop in Hall as [Hc Hch].
  apply str_truthy_Some in Hh as (user_handle & Hh & ?).
  apply str_truthy_Some in Hu as (username & Hu & ?).
  apply str_truthy_Some in Hch as (challenge & Hch & ?).
  rewrite Hh, Hu, Hch. simpl.
  destruct (verify_registration_response W credential challenge ORIGIN RP_ID)
    as [v|] eqn:Hv; simpl; [|by econstructor].
  destruct (add_employee_cases (db st) username user_handle)
    as [[He _]|(e & He & _)]; rewrite He; simpl; [by econstructor|].
  destruct (add_credential_cases
              {| employees := employees (db st) ++ [e];
                 credentials := credentials (db st);
                 attendance := attendance (db st) |}
              (VerifiedRegistration.credential_id v)
              (VerifiedRegistration.credential_public_key v)
              (VerifiedRegistration.sign_count v) (Employee.id e))
    as [[Hcr _]|(c & Hcr & _)]; rewrite Hcr; simpl; by econstructor.
Qed.


Lemma login_request_fun data credential lat lon credential' lat' lon' :
  login_request data credential lat lon →
  login_request data credential' lat' lon' →
  credential' = credential ∧ lat' = lat ∧ lon' = lon.
Proof.
  intros (f & l & -> & -> & _ & Hl & _ & -> & -> & _)
         (f' & l' & Hd & -> & _ & Hl' & _ & -> & -> & _).
  simplify_eq. rewrite Hl in Hl'. by simplify_eq.
Qed.

Lemma truthy_dict loc : truthy (JObj loc) = true → loc ≠ [].
Proof. by destruct loc. Qed.

Lemma login_finish_cases L T W st data :
  login_finish_outcome L T W st data
    (fst (login_finish L T W st data)) (snd (login_finish L T W st data)).
Proof.
  unfold login_finish.
  destruct data as [| | | | | |fields];
    try (simpl; apply LfInvalid; [intros ? ? ? (? & ? & ? & _); done|by left]).
  simpl.
  destruct (truthy (dict_get "credential" fields)) eqn:Hc; simpl.
  2:{ apply LfInvalid; [|auto].
      intros ? ? ? (flds & lc & ? & ? & ? & _). simplify_eq. congruence. }
  destruct (truthy (dict_get "location" fields)) eqn:Hl; simpl.
  2:{ apply LfInvalid; [|auto].
      intros ? ? ? (flds & lc & ? & ? & ? & Hloc & Hne & _). simplify_eq.
      rewrite Hloc in Hl. by destruct lc. }
  destruct (dict_get "location" fields) as [| | | | | |loc] eqn:Hloc.
  1-6: simpl; apply LfInvalid;
         [intros ? ? ? (flds & lc & ? & ? & ? & Hloc' & _); simplify_eq; congruence
         |by left].
  simpl.
  assert (Hreq : truthy (dict_get "latitude" loc) = true →
                 truthy (dict_get "longitude" loc) = true →
                 login_request (JObj fields) (dict_get "credential" fields)
                   (dict_get "latitude" loc) (dict_get "longitude" loc)).
  { intros ? ?. exists fields, loc. split_and!; try done. by apply truthy_dict. }
  destruct (truthy (dict_get "latitude" loc)) eqn:Hlat; simpl.
  2:{ apply LfInvalid; [|auto].
      intros ? ? ? (flds & lc & ? & ? & ? & Hloc' & _ & ? & ? & ? & _). simplify_eq.
      rewrite Hloc in Hloc'. simplify_eq. congruence. }
  destruct (truthy (dict_get "longitude" loc)) eqn:Hlon; simpl.
  2:{ apply LfInvalid; [|auto].
      intros ? ? ? (flds & lc & ? & ? & ? & Hloc' & _ & ? & ? & ? & ?). simplify_eq.
      rewrite Hloc in Hloc'. simplify_eq. congruence. }
  specialize (Hreq eq_refl eq_refl).
  destruct (geofence L _ _) as [[dist [|]]|e] eqn:Hg; simpl;
    [by eapply LfOutOfRange| |by eapply LfGeofenceError].
  destruct (str_truthy (session st !! "challenge")) eqn:Hch; simpl;
    [|by eapply LfMissingChallenge].
  apply str_truthy_Some in Hch as (challenge & Hch & ?). rewrite Hch. simpl.
  destruct (login_finish_try T W st _ challenge) as [[st' r]|e] eqn:Ht; simpl;
    [by eapply LfTried|by eapply LfFailed].
Qed.

Lemma login_finish_try_cases T W st credential challenge st' r :
  login_finish_try T W st credential challenge = Return (st', r) →
  st' = st ∧ r = UserNotFound.
Proof.
  unfold login_finish_try, decode_utf8, or_raise, bind. intros H.
  destruct (parse_raw_credential T W credential) as [a|] eqn:Ha; [|done].
  destruct (AuthenticationCredential.user_handle a) as [h|] eqn:Hh; [|done].
  destruct (utf8_valid h) eqn:Hv; [|done].
  destruct (get_employee_by_user_handle (db st) h) as [e|] eqn:He;
    [done|by simplify_eq].
Qed.

(** The tables after [/register/finish]: no attendance row is written; the
    employee table and the credential table are unchanged, or grew by the new
    employee, or by the new employee and a credential of that employee. *)
Lemma register_finish_tables W st credential :
  attendance (db (fst (register_finish W st credential))) = attendance (db st)
  ∧ ((employees (db (fst (register_finish W st credential))) = employees (db st)
      ∧ credentials (db (fst (register_finish W st credential)))
        = credentials (db st))
     ∨ ∃ e, employees (db (fst (register_finish W st credential)))
            = employees (db st) ++ [e]
            ∧ Employee.id e = next_id (map Employee.id (employees (db st)))
            ∧ session st !! "username" = Some (Employee.username e)
            ∧ (credentials (db (fst (register_finish W st credential)))
               = credentials (db st)
               ∨ ∃ c, credentials (db (fst (register_finish W st credential)))
                      = credentials (db st) ++ [c]
                      ∧ Credential.employee_id c = Employee.id e)).
Proof.
  destruct (register_finish_cases W st credential) as
    [ | | |challenge username user_handle v d1 e _ _ Hs _ _ He Hc
    |challenge username user_handle v d1 e d2 _ _ Hs _ _ _ He Hc];
    try (split; [done|by left]).
  - destruct (add_employee_cases (db st) username user_handle)
      as [[He' _]|(e' & He' & Hid & Hu & _)]; rewrite He' in He; simplify_eq.
    simpl. split; [done|]. right. exists e. split_and!; [done..|by left].
  - destruct (add_employee_cases (db st) username user_handle)
      as [[He' _]|(e' & He' & Hid & Hu & _)]; rewrite He' in He; simplify_eq.
    destruct (add_credential_cases
                {| employees := employees (db st) ++ [e];
                   credentials := credentials (db st);
                   attendance := attendance (db st) |}
                (VerifiedRegistration.credential_id v)
                (VerifiedRegistration.credential_public_key v)
                (VerifiedRegistration.sign_count v) (Employee.id e))
      as [[Hc' _]|(c & Hc' & _ & _ & _ & Hown & _)]; rewrite Hc' in Hc; simplify_eq.
    simpl. split; [done|]. right. exists e. split_and!; [done..|].
    right. by exists c.
Qed.

(** ** The pending challenge after a [finish] request *)

Lemma register_finish_session W st credential :
  consumed_on_success_only st
    (fst (register_finish W st credential)) (snd (register_finish W st credential)).
Proof.
  destruct (register_finish_cases W st credential); unfold consumed_on_success_only;
    simpl; try done.
  by simplify_map_eq.
Qed.

Lemma login_finish_session L T W st data :
  consumed_on_success_only st
    (fst (login_finish L T W st data)) (snd (login_finish L T W st data)).
Proof.
  destruct (login_finish_cases L T W st data) as
    [r ? Hr| | | | |credential lat lon dist challenge st' r ? ? ? ? Ht];
    unfold consumed_on_success_only; simpl; try done.
  - by destruct Hr as [->|[->| ->]].
  - by apply login_finish_try_cases in Ht as [-> ->].
Qed.

(** [/login/finish] changes nothing and never answers success: the query of
    line 196 raises before a row is looked at. *)
Lemma login_finish_state L T W st data : fst (login_finish L T W st data) = st.
Proof.
  destruct (login_finish_cases L T W st data) as
    [| | | | |credential lat lon dist challenge st' r ? ? ? ? Ht]; try done.
  by apply login_finish_try_cases in Ht as [-> _].
Qed.

Lemma login_finish_not_success L T W st data :
  is_success (snd (login_finish L T W st data)) = false.
Proof.
  destruct (login_finish_cases L T W st data) as
    [r ? Hr| | | | |credential lat lon dist challenge st' r ? ? ? ? Ht]; try done.
  - by destruct Hr as [->|[->| ->]].
  - by apply login_finish_try_cases in Ht as [_ ->].
Qed.

Lemma login_finish_past_geofence L T W st data credential lat lon dist challenge :
  login_request data credential lat lon →
  geofence L lat lon = Return (dist, false) →
  session st !! "challenge" = Some challenge →
  challenge ≠ EmptyString →
  login_finish L T W st data
  = match login_finish_try T W st credential challenge with
    | Return r => r
    | Raise e => (st, AuthenticationFailed e)
    end.
Proof.
  intros Hreq Hg Hch Hne.
  pose proof (login_finish_cases L T W st data) as H.
  destruct (login_finish L T W st data) as [st' r]. simpl in H.
  destruct H as
    [r Hno _|c' lat' lon' e Hreq'|c' lat' lon' d' Hreq'|c' lat' lon' d' Hreq'
    |c' lat' lon' d' ch e Hreq' ? Hs ? Ht|c' lat' lon' d' ch st' r Hreq' ? Hs ? Ht];
    try (by destruct (Hno _ _ _ Hreq));
    destruct (login_request_fun _ _ _ _ _ _ _ Hreq Hreq') as (-> & -> & ->);
    try congruence.
  - match goal with
    | Hno : str_truthy _ = false |- _ =>
        rewrite Hch in Hno; simpl in Hno;
        apply negb_false_iff, String.eqb_eq in Hno
    end.
    done.
  - rewrite Hch in Hs. simplify_eq. by rewrite Ht.
  - rewrite Hch in Hs. simplify_eq. by rewrite Ht.
Qed.

Lemma login_finish_geofence_error L T W st data credential lat lon e :
  login_request data credential lat lon →
  geofence L lat lon = Raise e →
  login_finish L T W st data = (st, InternalServerError e).
Proof.
  intros Hreq Hg.
  pose proof (login_finish_cases L T W st data) as H.
  destruct (login_finish L T W st data) as [st' r]. simpl in H.
  destruct H as
    [r Hno _|c' lat' lon' e' Hreq'|c' lat' lon' d' Hreq'|c' lat' lon' d' Hreq'
    |c' lat' lon' d' ch e' Hreq'|c' lat' lon' d' ch st' r Hreq'];
    try (by destruct (Hno _ _ _ Hreq));
    destruct (login_request_fun _ _ _ _ _ _ _ Hreq Hreq') as (-> & -> & ->);
    congruence.
Qed.

(** C1, as amended: a ceremony-finish attempt ([/register/finish] or
    [/login/finish]) removes the pending challenge from the actor's session
    exactly when it succeeds; after any failure (the geofence, a failed
    verification, a missing field, an unhandled error) the session is what it
    was, so the challenge is still pending. *)
Theorem finish_consumes_challenge_on_success_only
    (L : Libm) (T : FloatText) (W : WebAuthn) (st : state) :
  (∀ credential,
     consumed_on_success_only st
       (fst (register_finish W st credential))
       (snd (register_finish W st credential)))
  ∧ (∀ data,
       consumed_on_success_only st
         (fst (login_finish L T W st data))
         (snd (login_finish L T W st data))).
Proof.
  split; intros; [apply register_finish_session|apply login_finish_session].
Qed.

(** C1, as stated, fails: a registration attempt that the verifier rejects
    leaves the challenge in the session and a later attempt completes with
    it; a login attempt refused by the geofence leaves the challenge in the
    session, where the next attempt finds it. *)
Lemma failed_finish_keeps_challenge :
  let st1 := fst (toy_register_finish alice_pending (alice_attestation "stale")) in
  let far := login_body (alice_assertion "challenge-2" 1) north_of_office in
  let st2 := fst (toy_login_finish alice_login_pending far) in
  snd (toy_register_finish alice_pending (alice_attestation "stale"))
  = RegistrationFailed
  ∧ session st1 !! "challenge" = Some "challenge-1"
  ∧ snd (toy_register_finish st1 (alice_attestation "challenge-1")) = Success "alice"
  ∧ (∃ dist, snd (toy_login_finish alice_login_pending far) = OutOfRange dist)
  ∧ session st2 !! "challenge" = Some "challenge-2".
Proof.
  cbv zeta. split_and!; try (vm_compute; reflexivity).
  eexists. vm_compute. reflexivity.
Qed.

(** ** Replaying a [finish] request *)

Lemma login_finish_missing_challenge L T W st data credential lat lon dist :
  login_request data credential lat lon →
  geofence L lat lon = Return (dist, false) →
  str_truthy (session st !! "challenge") = false →
  login_finish L T W st data = (st, MissingChallenge).
Proof.
  intros Hreq Hg Hch.
  pose proof (login_finish_cases L T W st data) as H.
  destruct (login_finish L T W st data) as [st' r]. simpl in H.
  destruct H as
    [r Hno _|c' lat' lon' e Hreq'|c' lat' lon' d' Hreq'|c' lat' lon' d' Hreq'
    |c' lat' lon' d' ch e Hreq' ? Hs|c' lat' lon' d' ch st' r Hreq' ? Hs];
    try done.
  - by destruct (Hno _ _ _ Hreq).
  - destruct (login_request_fun _ _ _ _ _ _ _ Hreq Hreq') as (-> & -> & ->).
    congruence.
  - destruct (login_request_fun _ _ _ _ _ _ _ Hreq Hreq') as (-> & -> & ->).
    congruence.
  - rewrite Hs in Hch. simpl in Hch. apply negb_false_iff in Hch.
    by apply String.eqb_eq in Hch.
  - rewrite Hs in Hch. simpl in Hch. apply negb_false_iff in Hch.
    by apply String.eqb_eq in Hch.
Qed.

Lemma register_finish_missing_state W st credential :
  str_truthy (session st !! "challenge") = false →
  register_finish W st credential = (st, MissingSessionData).
Proof.
  intros H. unfold register_finish. rewrite H.
  by rewrite andb_false_r.
Qed.

(** C4: a ceremony-finish request that succeeded fails when it is submitted
    again in the same session: the first success removed the challenge, so
    the replay finds no ceremony state, is answered with the missing-state
    error and changes nothing. *)
Theorem replayed_finish_fails
    (L : Libm) (T : FloatText) (W : WebAuthn) (st : state) (req : request) :
  is_finish req = true →
  is_success (snd (handle L T W st req)) = true →
  let st' := fst (handle L T W st req) in
  handle L T W st' req = (st', missing_state_response req)
  ∧ is_success (missing_state_response req) = false.
Proof.
  intros Hfin Hok st'. subst st'. split; [|by destruct req].
  destruct req as [| credential | | data]; try done; simpl in *.
  - apply register_finish_missing_state.
    pose proof (register_finish_session W st credential) as Hs.
    unfold consumed_on_success_only in Hs. rewrite Hok in Hs. by rewrite Hs.
  - pose proof (login_finish_session L T W st data) as Hs.
    unfold consumed_on_success_only in Hs. rewrite Hok in Hs.
    pose proof (login_finish_cases L T W st data) as H.
    destruct (login_finish L T W st data) as [st' r]. simpl in *.
    destruct H; try done.
    + by destruct H0 as [->|[->| ->]].
    + eapply login_finish_missing_challenge; [done..|]. by rewrite Hs.
Qed.

Lemma replayed_finish_fails_witness :
  let W := toy_webauthn in
  let register := RegisterFinish (alice_attestation "challenge-1") in
  snd (handle small_angle_libm no_float_text W alice_pending register)
  = Success "alice"
  ∧ handle small_angle_libm no_float_text W alice_registered register
    = (alice_registered, MissingSessionData).
Proof.
  cbv zeta. split; [vm_compute; reflexivity|].
  destruct (replayed_finish_fails small_angle_libm no_float_text toy_webauthn
              alice_pending (RegisterFinish (alice_attestation "challenge-1")))
    as [H _]; [reflexivity|vm_compute; reflexivity|].
  exact H.
Defined.

(** ** The rows that a registration writes *)

Lemma find_existsb {A : Type} (p q : A → bool) (l : list A) (x : A) :
  List.find p l = Some x → (∀ y, p y = true → q y = true) → existsb q l = true.
Proof.
  intros Hf Hpq. apply find_some in Hf as [Hin Hp].
  apply existsb_exists. exists x. auto.
Qed.

Lemma existsb_find {A : Type} (p : A → bool) (l : list A) :
  existsb p l = true → is_Some (List.find p l).
Proof.
  intros H. apply existsb_exists in H as (x & Hin & Hp).
  destruct (List.find p l) eqn:Hf; [done|].
  by rewrite (find_none _ _ Hf x Hin) in Hp.
Qed.

(** C3, as amended: [/register/finish] commits the employee row and the
    credential row one after the other.  A success has written both, the
    credential owned by the new employee; a failure before or at the first
    commit has written nothing; when the second commit is refused (the
    credential id that the verifier reports is already stored) the employee
    row stays without a credential and the response is an unhandled error. *)
Theorem register_finish_writes (W : WebAuthn) (st : state) (credential : jvalue) :
  registration_writes W st credential
    (fst (register_finish W st credential)) (snd (register_finish W st credential)).
Proof.
  destruct (register_finish_cases W st credential) as
    [ | | |challenge username user_handle v d1 e ? Hch ? ? Hv He Hc
    |challenge username user_handle v d1 e d2 ? ? ? ? ? ? He Hc];
    try (by apply WroteNothing).
  - destruct (add_employee_cases (db st) username user_handle)
      as [[He' _]|(e' & He' & _)]; rewrite He' in He; simplify_eq.
    destruct (add_credential_cases
                {| employees := employees (db st) ++ [e];
                   credentials := credentials (db st);
                   attendance := attendance (db st) |}
                (VerifiedRegistration.credential_id v)
                (VerifiedRegistration.credential_public_key v)
                (VerifiedRegistration.sign_count v) (Employee.id e))
      as [[_ Hex]|(c & Hc' & _)]; [|rewrite Hc' in Hc; done].
    eapply WroteEmployeeOnly; try done.
    by apply existsb_find in Hex.
  - destruct (add_employee_cases (db st) username user_handle)
      as [[He' _]|(e' & He' & _ & Hu & _)]; rewrite He' in He; simplify_eq.
    destruct (add_credential_cases
                {| employees := employees (db st) ++ [e];
                   credentials := credentials (db st);
                   attendance := attendance (db st) |}
                (VerifiedRegistration.credential_id v)
                (VerifiedRegistration.credential_public_key v)
                (VerifiedRegistration.sign_count v) (Employee.id e))
      as [[Hc' _]|(c & Hc' & _ & _ & _ & Hid & _)]; rewrite Hc' in Hc; simplify_eq.
    by eapply (WroteBoth _ _ _ _ _ e c).
Qed.

(** C3, as stated, fails: alice registers with a credential id that bob's
    authenticator already registered; her employee row is committed, the
    credential row is refused, and she is left without a credential. *)
Lemma employee_without_credential :
  let st' := fst (toy_register_finish alice_pending_after_bob
                    (attestation_of "cred-1" "challenge-1")) in
  get_employee_by_username (db alice_pending_after_bob) "alice" = None
  ∧ snd (toy_register_finish alice_pending_after_bob
           (attestation_of "cred-1" "challenge-1"))
    = InternalServerError IntegrityError
  ∧ ∃ e, get_employee_by_username (db st') "alice" = Some e
         ∧ get_credentials_by_employee_id (db st') (Employee.id e) = [].
Proof.
  cbv zeta. split_and!; try (vm_compute; reflexivity).
  eexists. split; vm_compute; reflexivity.
Qed.

(** ** A registration for a user name that is taken *)

(** C9: [/register/finish] does not look the user name up again.  When an
    employee with the pending user name exists, the call never answers
    'Username already exists' and never changes the state (the pending
    session data stays); once the session data is complete and the verifier
    accepts the attestation, the insert is refused and the call ends in an
    unhandled integrity error. *)
Theorem register_finish_username_taken
    (W : WebAuthn) (st : state) (credential : jvalue) (username : string)
    (e : Employee.t) :
  session st !! "username" = Some username →
  get_employee_by_username (db st) username = Some e →
  fst (register_finish W st credential) = st
  ∧ snd (register_finish W st credential) ≠ UsernameExists
  ∧ (∀ challenge user_handle v,
       truthy credential = true →
       session st !! "challenge" = Some challenge → challenge ≠ EmptyString →
       session st !! "user_handle" = Some user_handle →
       user_handle ≠ EmptyString →
       username ≠ EmptyString →
       verify_registration_response W credential challenge ORIGIN RP_ID = Some v →
       snd (register_finish W st credential) = InternalServerError IntegrityError).
Proof.
  intros Hu He.
  assert (Hraise : ∀ user_handle,
            add_employee (db st) username user_handle = Raise IntegrityError).
  { intros user_handle. unfold add_employee.
    erewrite find_existsb; [done|apply He|].
    intros y Hy. simpl in Hy. by rewrite Hy. }
  split_and!.
  - destruct (register_finish_cases W st credential); try done;
      simplify_eq; by rewrite Hraise in *.
  - by destruct (register_finish_cases W st credential).
  - intros challenge user_handle v Hc Hch ? Hh ? ? Hv.
    unfold register_finish. rewrite Hc, Hch, Hu, Hh. simpl.
    replace (negb (String.eqb challenge "")) with true
      by (symmetry; apply negb_true_iff, String.eqb_neq; done).
    replace (negb (String.eqb username "")) with true
      by (symmetry; apply negb_true_iff, String.eqb_neq; done).
    replace (negb (String.eqb user_handle "")) with true
      by (symmetry; apply negb_true_iff, String.eqb_neq; done).
    simpl. rewrite Hv, Hraise. done.
Qed.

Lemma register_finish_username_taken_witness :
  let credential := attestation_of "cred-3" "challenge-1" in
  (session alice_taken !! "username" = Some "alice"
   ∧ get_employee_by_username (db alice_taken) "alice" = Some alice_row)
  ∧ fst (register_finish toy_webauthn alice_taken credential) = alice_taken
  ∧ snd (register_finish toy_webauthn alice_taken credential)
    = InternalServerError IntegrityError.
Proof.
  cbv zeta.
  assert (Hu : session alice_taken !! "username" = Some "alice")
    by (vm_compute; reflexivity).
  assert (He : get_employee_by_username (db alice_taken) "alice" = Some alice_row)
    by (vm_compute; reflexivity).
  split; [done|].
  destruct (register_finish_username_taken toy_webauthn alice_taken
              (attestation_of "cred-3" "challenge-1") "alice" alice_row Hu He)
    as (H1 & _ & H3).
  split; [exact H1|].
  eapply (H3 "challenge-1" "handle-1"); try (vm_compute; reflexivity); done.
Defined.

(** ** Logging in after a registration *)

Lemma next_id_gt (ids : list Z) (x : Z) : In x ids → (x < next_id ids)%Z.
Proof.
  unfold next_id. induction ids as [|y ids IH]; simpl; [done|].
  intros [->|Hin]; [lia|]. specialize (IH Hin). lia.
Qed.

Lemma find_app_none {A : Type} (p : A → bool) (l : list A) (x : A) :
  existsb p l = false → p x = true → List.find p (l ++ [x]) = Some x.
Proof.
  induction l as [|y l IH]; simpl; intros Hl Hx; [by rewrite Hx|].
  apply orb_false_elim in Hl as [Hy Hl]. rewrite Hy. auto.
Qed.

Lemma existsb_or_false {A : Type} (p q : A → bool) (l : list A) :
  existsb (fun x => p x || q x) l = false → existsb p l = false.
Proof.
  induction l as [|y l IH]; simpl; [done|]. intros H.
  apply orb_false_elim in H as [Hy Hl]. apply orb_false_elim in Hy as [-> _].
  auto.
Qed.

Lemma filter_none {A : Type} (p : A → bool) (l : list A) :
  (∀ x, In x l → p x = false) → List.filter p l = [].
Proof.
  induction l as [|y l IH]; simpl; [done|]. intros H.
  rewrite (H y) by auto. auto.
Qed.

Lemma credentials_owned_empty : credentials_owned empty_database.
Proof. intros c Hc. by apply elem_of_nil in Hc. Qed.

Lemma handle_credentials_owned L T W st req :
  credentials_owned (db st) → credentials_owned (db (fst (handle L T W st req))).
Proof.
  intros Hown. destruct req as [uuid4 ch u|credential|ch u|data]; simpl.
  - unfold register_start. repeat case_match; done.
  - destruct (register_finish_tables W st credential)
      as (_ & [[He Hc]|(e & He & _ & _ & [Hc|(c & Hc & Hid)])]).
    + intros c' Hc'. rewrite Hc in Hc'. rewrite He. by apply Hown.
    + intros c' Hc'. rewrite Hc in Hc'. rewrite He.
      destruct (Hown c' Hc') as (e' & ? & ?). exists e'.
      split; [|done]. apply elem_of_app. by left.
    + intros c' Hc'. rewrite Hc in Hc'. rewrite He.
      apply elem_of_app in Hc' as [Hc'|Hc'].
      * destruct (Hown c' Hc') as (e' & ? & ?). exists e'.
        split; [|done]. apply elem_of_app. by left.
      * apply list_elem_of_singleton in Hc' as ->. exists e.
        split; [|done]. apply elem_of_app. right. by apply list_elem_of_singleton.
  - unfold login_start. repeat case_match; done.
  - by rewrite login_finish_state.
Qed.

(** C7: after a successful [/register/finish] for a user name, [/login/start]
    for that user name succeeds and its [allow_credentials] list is exactly
    the id of the credential row that the registration appended.  The
    database before the registration is any one whose credential rows belong
    to employee rows, which every handler preserves. *)
Theorem login_start_after_registration
    (W : WebAuthn) (st : state) (credential : jvalue) (username challenge : string) :
  credentials_owned (db st) →
  snd (register_finish W st credential) = Success username →
  let st1 := fst (register_finish W st credential) in
  ∃ c, credentials (db st1) = credentials (db st) ++ [c]
       ∧ login_start challenge st1 (Some username)
         = (with_session st1 (<["challenge" := challenge]> (session st1)),
            AuthenticationOptions challenge RP_ID [Credential.credential_id c]).
Proof.
  intros Hown Hok st1. subst st1.
  pose proof (register_finish_cases W st credential) as H.
  destruct (register_finish W st credential) as [st1 r]. simpl in *. subst r.
  inversion H as [| | | |ch u uh v d1 e d2 _ _ _ _ Hne _ He Hc]; subst.
  destruct (add_employee_cases (db st) username uh)
    as [[He' _]|(e' & He' & Hid & Hu & _ & Hex)]; rewrite He' in He; simplify_eq.
  destruct (add_credential_cases
              {| employees := employees (db st) ++ [e];
                 credentials := credentials (db st);
                 attendance := attendance (db st) |}
              (VerifiedRegistration.credential_id v)
              (VerifiedRegistration.credential_public_key v)
              (VerifiedRegistration.sign_count v) (Employee.id e))
    as [[Hc' _]|(c & Hc' & _ & _ & _ & Hce & _)]; rewrite Hc' in Hc; simplify_eq.
  exists c. split; [done|].
  unfold login_start. simpl.
  replace (negb (String.eqb (Employee.username e) "")) with true
    by (symmetry; apply negb_true_iff, String.eqb_neq; done).
  simpl. unfold get_employee_by_username. simpl.
  rewrite (find_app_none _ _ e); [|
    by apply (existsb_or_false _ _ _ Hex)|by apply String.eqb_refl].
  unfold get_credentials_by_employee_id. simpl.
  rewrite List.filter_app. simpl.
  rewrite filter_none.
  - rewrite Hce, Z.eqb_refl. done.
  - intros c0 Hc0. apply Z.eqb_neq. intros Heq.
    destruct (Hown c0) as (e0 & He0 & Hid0); [by apply list_elem_of_In|].
    assert (Employee.id e0 < next_id (map Employee.id (employees (db st))))%Z.
    { apply next_id_gt, in_map, list_elem_of_In, He0. }
    lia.
Qed.

Lemma login_start_after_registration_witness :
  credentials_owned (db alice_pending)
  ∧ snd (register_finish toy_webauthn alice_pending (alice_attestation "challenge-1"))
    = Success "alice"
  ∧ ∃ c, credentials (db alice_registered) = credentials (db alice_pending) ++ [c]
         ∧ login_start "challenge-2" alice_registered (Some "alice")
           = (with_session alice_registered
                (<["challenge" := "challenge-2"]> (session alice_registered)),
              AuthenticationOptions "challenge-2" RP_ID [Credential.credential_id c]).
Proof.
  assert (Hown : credentials_owned (db alice_pending))
    by apply credentials_owned_empty.
  assert (Hok : snd (register_finish toy_webauthn alice_pending
                       (alice_attestation "challenge-1")) = Success "alice")
    by (vm_compute; reflexivity).
  split; [exact Hown|]. split; [exact Hok|].
  exact (login_start_after_registration toy_webauthn alice_pending
           (alice_attestation "challenge-1") "alice" "challenge-2" Hown Hok).
Defined.

(** ** The stored signature counter *)

Lemma login_finish_failure L T W st data :
  is_success (snd (login_finish L T W st data)) = false →
  fst (login_finish L T W st data) = st.
Proof. intros _. apply login_finish_state. Qed.

(** C2: the code at an input of the claim.  alice's credential is stored
    with the counter 0 and her login is pending; her assertion reports the
    counter 5, and the verifier accepts it for the stored key, the stored
    counter and the pending challenge, with 5 as the new counter.
    [/login/finish] from the office does not persist it: the query of line
    196 is given the [str] id of the assertion, raises, and the request is
    answered the authentication-failed error with the stored counter as it
    was. *)
Lemma accepted_assertion_stores_no_counter :
  let credential := alice_assertion "challenge-2" 5 in
  (∃ a dbc,
     validate_authentication_credential toy_webauthn credential = Some a
     ∧ get_credential_by_credential_id (db alice_login_pending)
         (AuthenticationCredential.raw_id a) = Some dbc
     ∧ Credential.sign_count dbc = 0%Z
     ∧ verify_authentication_response toy_webauthn a "challenge-2" ORIGIN RP_ID
         (Credential.public_key dbc) (Credential.sign_count dbc) = Some 5%Z)
  ∧ session alice_login_pending !! "challenge" = Some "challenge-2"
  ∧ toy_login_finish alice_login_pending (login_body credential at_office)
    = (alice_login_pending, AuthenticationFailed TypeError)
  ∧ map Credential.sign_count (credentials (db alice_login_pending)) = [0%Z].
Proof.
  cbv zeta. split_and!; try (vm_compute; reflexivity).
  eexists _, _. split_and!; vm_compute; reflexivity.
Qed.

(** ** The geofence *)

Lemma geofence_distance L lat lon dist outside :
  geofence L lat lon = Return (dist, outside)
  ↔ distance L lat lon OFFICE_LATITUDE OFFICE_LONGITUDE = Return dist
    ∧ outside = (ALLOWED_DISTANCE_METERS <? dist)%float.
Proof.
  unfold geofence, bind.
  destruct (distance L lat lon OFFICE_LATITUDE OFFICE_LONGITUDE) as [d|e].
  - split; [intros ?; by simplify_eq|intros [? ->]; by simplify_eq].
  - split; [done|by intros [? _]].
Qed.

Lemma login_finish_out_of_range L T W st data credential lat lon dist :
  login_request data credential lat lon →
  geofence L lat lon = Return (dist, true) →
  login_finish L T W st data = (st, OutOfRange dist).
Proof.
  intros Hreq Hg.
  pose proof (login_finish_cases L T W st data) as H.
  destruct (login_finish L T W st data) as [st' r]. simpl in H.
  destruct H as
    [r Hno _|c' lat' lon' e Hreq'|c' lat' lon' d' Hreq'|c' lat' lon' d' Hreq'
    |c' lat' lon' d' ch e Hreq'|c' lat' lon' d' ch st' r Hreq'];
    try (by destruct (Hno _ _ _ Hreq));
    destruct (login_request_fun _ _ _ _ _ _ _ Hreq Hreq') as (-> & -> & ->);
    congruence.
Qed.

Lemma login_finish_out_of_range_inv L T W st data credential lat lon st' dist :
  login_request data credential lat lon →
  login_finish L T W st data = (st', OutOfRange dist) →
  st' = st ∧ geofence L lat lon = Return (dist, true).
Proof.
  intros Hreq Heq.
  pose proof (login_finish_cases L T W st data) as H.
  rewrite Heq in H. simpl in H.
  inversion H as
    [r Hno Hr| |c' lat' lon' d' Hreq' Hg| |
    |c' lat' lon' d' ch st1 r Hreq' _ _ _ Ht]; subst.
  - by destruct (Hno _ _ _ Hreq).
  - destruct (login_request_fun _ _ _ _ _ _ _ Hreq Hreq') as (-> & -> & ->).
    done.
  - by apply login_finish_try_cases in Ht as [_ ?].
Qed.

(** C5: for a [/login/finish] body that passes the input validation,
    - the response is the out-of-range error carrying a distance exactly when
      [distance] from the submitted point to the office returns that distance
      and it is strictly greater than the allowed one, and the state is not
      changed;
    - the condition mentions neither the session, nor the database, nor the
      verifier: the same body is refused with the same distance in every
      state and under every verifier;
    - what is measured, for float coordinates [x] and [y], is the haversine
      formula on a sphere of radius 6371000 m between ([x], [y]) and the
      office: with [a] the square of the sine of half the difference of the
      latitudes plus the product of the cosines of the two latitudes and the
      square of the sine of half the difference of the longitudes, all in
      radians, the distance is 6371000 times twice [atan2 (sqrt a)
      (sqrt (1 - a))]. *)
Theorem geofence_runs_first
    (L : Libm) (T : FloatText) (W : WebAuthn) (st : state)
    (data credential lat lon : jvalue) :
  login_request data credential lat lon →
  (∀ st' dist,
     login_finish L T W st data = (st', OutOfRange dist)
     ↔ st' = st
       ∧ distance L lat lon OFFICE_LATITUDE OFFICE_LONGITUDE = Return dist
       ∧ (ALLOWED_DISTANCE_METERS <? dist)%float = true)
  ∧ (∀ dist,
       snd (login_finish L T W st data) = OutOfRange dist →
       ∀ T2 W2 st2, login_finish L T2 W2 st2 data = (st2, OutOfRange dist))
  ∧ (∀ x y,
       lat = JFloat x → lon = JFloat y →
       distance L lat lon OFFICE_LATITUDE OFFICE_LONGITUDE
       = (let! s1 := sin L (radians (OFFICE_LATITUDE - x) / 2) in
          let! p1 := pow2 L s1 in
          let! c1 := cos L (radians x) in
          let! c2 := cos L (radians OFFICE_LATITUDE) in
          let! s2 := sin L (radians (OFFICE_LONGITUDE - y) / 2) in
          let! p2 := pow2 L s2 in
          let a := (p1 + c1 * c2 * p2)%float in
          let! q1 := sqrt a in
          let! q2 := sqrt (1 - a) in
          let! t := atan2 L q1 q2 in
          Return (6371000 * (2 * t))%float)).
Proof.
  intros Hreq. split_and!.
  - intros st' dist. split.
    + intros Heq.
      destruct (login_finish_out_of_range_inv _ _ _ _ _ _ _ _ _ _ Hreq Heq)
        as [-> Hg].
      apply geofence_distance in Hg as [? ?]. done.
    + intros (-> & Hd & Hout).
      eapply login_finish_out_of_range; [done|].
      apply geofence_distance. done.
  - intros dist Hr T2 W2 st2.
    destruct (login_finish L T W st data) as [st' r] eqn:Heq. simpl in Hr. subst r.
    destruct (login_finish_out_of_range_inv _ _ _ _ _ _ _ _ _ _ Hreq Heq)
      as [-> Hg].
    by eapply login_finish_out_of_range.
  - intros x y -> ->. reflexivity.
Qed.

(** One degree north of the office is measured as 111.2 km and refused in any
    state; 37.7754 north, 56 m from the office, and the office itself, at
    distance 0, are let through to the checks that follow. *)
Lemma geofence_runs_first_witness :
  let L := small_angle_libm in
  let credential := alice_assertion "challenge-2" 1 in
  let far := login_body credential north_of_office in
  let near :=
    login_body credential
      (JObj [("latitude", JFloat 37.7754); ("longitude", JFloat OFFICE_LONGITUDE)]) in
  login_request far credential
    (JFloat (OFFICE_LATITUDE + 1)) (JFloat OFFICE_LONGITUDE)
  ∧ login_finish L no_float_text toy_webauthn empty_state far
    = (empty_state, OutOfRange 111199.16087535759)
  ∧ login_finish L no_float_text toy_webauthn alice_login_pending far
    = (alice_login_pending, OutOfRange 111199.16087535759)
  ∧ distance L (JFloat 37.7754) (JFloat OFFICE_LONGITUDE)
      OFFICE_LATITUDE OFFICE_LONGITUDE = Return 55.597463322284%float
  ∧ login_finish L no_float_text toy_webauthn empty_state near
    = (empty_state, MissingChallenge)
  ∧ distance L (JFloat OFFICE_LATITUDE) (JFloat OFFICE_LONGITUDE)
      OFFICE_LATITUDE OFFICE_LONGITUDE = Return 0%float
  ∧ login_finish L no_float_text toy_webauthn empty_state
      (login_body credential at_office)
    = (empty_state, MissingChallenge).
Proof.
  cbv zeta.
  assert (Hreq : login_request
                   (login_body (alice_assertion "challenge-2" 1) north_of_office)
                   (alice_assertion "challenge-2" 1)
                   (JFloat (OFFICE_LATITUDE + 1)) (JFloat OFFICE_LONGITUDE)).
  { eexists _, _. split_and!; try reflexivity; try (vm_compute; reflexivity).
    discriminate. }
  split; [exact Hreq|].
  assert (Hfar : ∀ st,
            login_finish small_angle_libm no_float_text toy_webauthn st
              (login_body (alice_assertion "challenge-2" 1) north_of_office)
            = (st, OutOfRange 111199.16087535759)).
  { intros st.
    destruct (geofence_runs_first small_angle_libm no_float_text toy_webauthn
                st _ _ _ _ Hreq) as (Hiff & _).
    apply Hiff.
    split; [reflexivity|]. split; vm_compute; reflexivity. }
  split_and!; try apply Hfar; vm_compute; reflexivity.
Defined.

(** C8: a [/login/finish] body whose credential and location are present and
    whose latitude or longitude is the number zero is answered 'Latitude and
    longitude are required'; the state is unchanged, and neither the C
    library, nor the session, nor the verifier plays a part. *)
Theorem zero_coordinate_rejected
    (L : Libm) (T : FloatText) (W : WebAuthn) (st : state)
    (fields loc : list (string * jvalue)) :
  truthy (dict_get "credential" fields) = true →
  dict_get "location" fields = JObj loc →
  is_zero (dict_get "latitude" loc) ∨ is_zero (dict_get "longitude" loc) →
  login_finish L T W st (JObj fields) = (st, LatLonRequired).
Proof.
  intros Hc Hl Hz. unfold login_finish. simpl. rewrite Hc, Hl. simpl.
  assert (loc ≠ []) as Hne.
  { intros ->. destruct Hz as [[?|(f & ? & _)]|[?|(f & ? & _)]]; done. }
  destruct loc as [|kv loc]; [done|]. simpl.
  assert (Hfalse : ∀ v, is_zero v → truthy v = false).
  { intros v [->|(f & -> & Hf)]; simpl; [done|by rewrite Hf]. }
  destruct Hz as [Hz|Hz]; apply Hfalse in Hz; simpl in Hz; rewrite Hz;
    [done|by rewrite orb_true_r].
Qed.

Lemma zero_coordinate_rejected_witness :
  let on_equator :=
    [("latitude", JInt 0); ("longitude", JFloat OFFICE_LONGITUDE)] in
  let fields :=
    [("credential", alice_assertion "challenge-2" 1); ("location", JObj on_equator)] in
  (truthy (dict_get "credential" fields) = true
   ∧ dict_get "location" fields = JObj on_equator
   ∧ is_zero (dict_get "latitude" on_equator))
  ∧ login_finish small_angle_libm no_float_text toy_webauthn alice_login_pending
      (JObj fields)
    = (alice_login_pending, LatLonRequired).
Proof.
  cbv zeta. split; [split_and!; [reflexivity|reflexivity|by left]|].
  apply zero_coordinate_rejected with
    (loc := [("latitude", JInt 0); ("longitude", JFloat OFFICE_LONGITUDE)]);
    [reflexivity|reflexivity|left; by left].
Defined.

Lemma math_1_raises func x e : math_1 func x = Raise e → e = ValueError.
Proof. unfold math_1. repeat case_match; intros ?; by simplify_eq. Qed.

Lemma math_2_raises func x y e :
  math_2 func x y = Raise e → e = ValueError ∨ e = OverflowError.
Proof. unfold math_2. repeat case_match; intros ?; simplify_eq; auto. Qed.

Lemma pow2_raises L x e : pow2 L x = Raise e → e = OverflowError.
Proof. unfold pow2. repeat case_match; intros ?; by simplify_eq. Qed.

Lemma distance_float_raises L x y lat2 lon2 e :
  distance L (JFloat x) (JFloat y) lat2 lon2 = Raise e →
  e = ValueError ∨ e = OverflowError.
Proof.
  unfold distance, sin, cos, sqrt, atan2. simpl.
  repeat
    match goal with
    | |- bind (math_1 ?f ?a) _ = _ → _ =>
        destruct (math_1 f a) eqn:?; simpl;
        [|intros ?; simplify_eq; left; by eapply math_1_raises]
    | |- bind (pow2 ?l ?a) _ = _ → _ =>
        destruct (pow2 l a) eqn:?; simpl;
        [|intros ?; simplify_eq; right; by eapply pow2_raises]
    | |- bind (math_2 ?f ?a ?b) _ = _ → _ =>
        destruct (math_2 f a b) eqn:?; simpl;
        [|intros ?; simplify_eq; by eapply math_2_raises]
    end.
  done.
Qed.

(** C6, as amended: the gate of [/login/finish] validates no coordinate.  It
    never fails with an invalid-coordinates error; whenever [distance]
    returns, for a point in range or not, the gate yields that distance and
    the decision that it does not exceed the allowed one; for float
    coordinates its only failures are the value and overflow errors of the
    float operations; and a request that the gate refuses or that fails
    leaves the state unchanged. *)
Theorem gate_without_coordinate_check (L : Libm) :
  (∀ lat lon, within_radius L lat lon ≠ GateInvalidCoordinates)
  ∧ (∀ lat lon dist,
       distance L lat lon OFFICE_LATITUDE OFFICE_LONGITUDE = Return dist →
       within_radius L lat lon
       = GateDecision (negb (ALLOWED_DISTANCE_METERS <? dist)%float) dist)
  ∧ (∀ x y e,
       within_radius L (JFloat x) (JFloat y) = GateException e →
       e = ValueError ∨ e = OverflowError)
  ∧ (∀ T W st data,
       is_success (snd (login_finish L T W st data)) = false →
       fst (login_finish L T W st data) = st).
Proof.
  split_and!.
  - intros lat lon. unfold within_radius. by destruct (geofence L lat lon) as [[? ?]|].
  - intros lat lon dist Hd. unfold within_radius, geofence. by rewrite Hd.
  - intros x y e. unfold within_radius, geofence, bind.
    destruct (distance L (JFloat x) (JFloat y) _ _) as [d|e'] eqn:Hd; [done|].
    intros ?; simplify_eq. by eapply distance_float_raises.
  - intros T W st data. apply login_finish_failure.
Qed.

(** C6, as stated, fails: latitude 91 is out of range, the gate as the
    specification words it refuses it as invalid, and the gate of the code
    measures a distance from it; the request is answered with the
    out-of-range error of a point that is too far. *)
Lemma out_of_range_latitude_measured :
  let location := JObj [("latitude", JFloat 91); ("longitude", JFloat OFFICE_LONGITUDE)] in
  out_of_range 91 OFFICE_LONGITUDE = true
  ∧ (∀ L, WithinRadius_spec L 91 OFFICE_LONGITUDE = GateInvalidCoordinates
          ∧ within_radius L (JFloat 91) (JFloat OFFICE_LONGITUDE) ≠ GateInvalidCoordinates)
  ∧ (∃ dist, within_radius small_angle_libm (JFloat 91) (JFloat OFFICE_LONGITUDE)
             = GateDecision false dist)
  ∧ (∃ dist, snd (toy_login_finish alice_login_pending
                    (login_body (alice_assertion "challenge-2" 1) location))
             = OutOfRange dist).
Proof.
  cbv zeta. split_and!.
  - vm_compute; reflexivity.
  - intros L. split; [reflexivity|].
    unfold within_radius. by destruct (geofence L _ _) as [[? ?]|].
  - eexists. vm_compute. reflexivity.
  - eexists. vm_compute. reflexivity.
Qed.

(** ** The credential text that [parse_raw] reads *)





















(** * Further properties of the handlers *)

(** ** The rows of a registration, written and found again *)

Lemma find_none_existsb {A : Type} (p : A → bool) (l : list A) :
  List.find p l = None → existsb p l = false.
Proof.
  induction l as [|x l IH]; simpl; [done|].
  destruct (p x); [done|]. auto.
Qed.

Lemma existsb_orb_false {A : Type} (p q : A → bool) (l : list A) :
  existsb p l = false → existsb q l = false →
  existsb (fun x => p x || q x) l = false.
Proof.
  induction l as [|x l IH]; simpl; [done|]. intros Hp Hq.
  apply orb_false_elim in Hp as [-> Hp]. apply orb_false_elim in Hq as [-> Hq].
  simpl. auto.
Qed.

Lemma find_app_some {A : Type} (p : A → bool) (l k : list A) (x : A) :
  List.find p l = Some x → List.find p (l ++ k) = Some x.
Proof.
  induction l as [|y l IH]; simpl; [done|]. destruct (p y); auto.
Qed.

Lemma str_truthy_ne (s : string) : s ≠ EmptyString → str_truthy (Some s) = true.
Proof. intros Hs. simpl. by apply negb_true_iff, String.eqb_neq. Qed.

(** X1: What a registration writes is found again.  When the session holds a
    pending registration (a challenge, a user name and a handle, none
    empty), the user name and the handle are free, and the verifier accepts
    the attestation for the pending challenge with a credential id that is
    not stored, [/register/finish] answers success with the user name;
    afterwards the employee is found by user name and by handle, the
    credential is found by its id with the verified key and counter and
    belongs to that employee, both rows are the last of their tables, and the
    three session keys of the ceremony are gone, the other keys being
    kept. *)
Theorem registration_rows_found
    (W : WebAuthn) (st : state) (credential : jvalue)
    (challenge username user_handle : string) (v : VerifiedRegistration.t) :
  session st !! "challenge" = Some challenge → challenge ≠ EmptyString →
  session st !! "username" = Some username → username ≠ EmptyString →
  session st !! "user_handle" = Some user_handle → user_handle ≠ EmptyString →
  get_employee_by_username (db st) username = None →
  get_employee_by_user_handle (db st) user_handle = None →
  truthy credential = true →
  verify_registration_response W credential challenge ORIGIN RP_ID = Some v →
  get_credential_by_credential_id (db st) (VerifiedRegistration.credential_id v)
  = None →
  let st2 := fst (register_finish W st credential) in
  snd (register_finish W st credential) = Success username
  ∧ session st2
    = delete "user_handle" (delete "username" (delete "challenge" (session st)))
  ∧ ∃ e c,
      employees (db st2) = employees (db st) ++ [e]
      ∧ credentials (db st2) = credentials (db st) ++ [c]
      ∧ attendance (db st2) = attendance (db st)
      ∧ get_employee_by_username (db st2) username = Some e
      ∧ get_employee_by_user_handle (db st2) user_handle = Some e
      ∧ get_credential_by_credential_id (db st2)
          (VerifiedRegistration.credential_id v) = Some c
      ∧ Credential.employee_id c = Employee.id e
      ∧ Credential.public_key c = VerifiedRegistration.credential_public_key v
      ∧ Credential.sign_count c = VerifiedRegistration.sign_count v.
Proof.
  intros Hsc Hch Hsu Hu Hsh Hh Hfree Hfresh Hc Hv Hnew st2. subst st2.
  unfold register_finish. rewrite Hsc, Hsu, Hsh.
  rewrite Hc, (str_truthy_ne _ Hu), (str_truthy_ne _ Hh), (str_truthy_ne _ Hch).
  simpl. rewrite Hv.
  destruct (add_employee_cases (db st) username user_handle)
    as [[_ Hex]|(e & He & Hid & Hun & Huh & _)].
  { rewrite existsb_orb_false in Hex; [done|by apply find_none_existsb..]. }
  rewrite He.
  destruct (add_credential_cases
              {| employees := employees (db st) ++ [e];
                 credentials := credentials (db st);
                 attendance := attendance (db st) |}
              (VerifiedRegistration.credential_id v)
              (VerifiedRegistration.credential_public_key v)
              (VerifiedRegistration.sign_count v) (Employee.id e))
    as [[_ Hex]|(c & Hcr & Hcid & Hpk & Hsn & Hown & _)].
  { simpl in Hex. by rewrite find_none_existsb in Hex. }
  rewrite Hcr. simpl. split; [done|]. split; [done|].
  exists e, c. split_and!; try done.
  - unfold get_employee_by_username. simpl.
    apply find_app_none; [by apply find_none_existsb|].
    rewrite Hun. apply String.eqb_refl.
  - unfold get_employee_by_user_handle. simpl.
    apply find_app_none; [by apply find_none_existsb|].
    rewrite Huh. apply String.eqb_refl.
  - unfold get_credential_by_credential_id. simpl.
    apply find_app_none; [by apply find_none_existsb|].
    rewrite Hcid. apply String.eqb_refl.
Qed.

Lemma registration_rows_found_witness :
  (session alice_pending !! "challenge" = Some "challenge-1"
   ∧ session alice_pending !! "username" = Some "alice"
   ∧ session alice_pending !! "user_handle" = Some "handle-1"
   ∧ verify_registration_response toy_webauthn (alice_attestation "challenge-1")
       "challenge-1" ORIGIN RP_ID
     = Some {| VerifiedRegistration.credential_id := "cred-1";
               VerifiedRegistration.credential_public_key := "pk-1";
               VerifiedRegistration.sign_count := 0 |})
  ∧ snd (register_finish toy_webauthn alice_pending (alice_attestation "challenge-1"))
    = Success "alice"
  ∧ ∃ e c,
      get_employee_by_username (db alice_registered) "alice" = Some e
      ∧ get_credential_by_credential_id (db alice_registered) "cred-1" = Some c
      ∧ Credential.employee_id c = Employee.id e.
Proof.
  assert (Hsc : session alice_pending !! "challenge" = Some "challenge-1")
    by (vm_compute; reflexivity).
  assert (Hsu : session alice_pending !! "username" = Some "alice")
    by (vm_compute; reflexivity).
  assert (Hsh : session alice_pending !! "user_handle" = Some "handle-1")
    by (vm_compute; reflexivity).
  assert (Hv : verify_registration_response toy_webauthn
                 (alice_attestation "challenge-1") "challenge-1" ORIGIN RP_ID
               = Some {| VerifiedRegistration.credential_id := "cred-1";
                         VerifiedRegistration.credential_public_key := "pk-1";
                         VerifiedRegistration.sign_count := 0 |})
    by reflexivity.
  split; [done|].
  destruct (registration_rows_found toy_webauthn alice_pending
              (alice_attestation "challenge-1") "challenge-1" "alice" "handle-1"
              _ Hsc ltac:(discriminate) Hsu ltac:(discriminate) Hsh
              ltac:(discriminate) eq_refl eq_refl eq_refl Hv eq_refl)
    as (Hok & _ & e & c & _ & _ & _ & He & _ & Hc & Hown & _).
  split; [exact Hok|]. exists e, c. split_and!; done.
Defined.

(** ** What the handlers do to the tables *)

Lemma register_start_db uuid4 challenge st username :
  db (fst (register_start uuid4 challenge st username)) = db st.
Proof. unfold register_start. repeat case_match; done. Qed.

Lemma login_start_db challenge st username :
  db (fst (login_start challenge st username)) = db st.
Proof. unfold login_start. repeat case_match; done. Qed.

Lemma handle_employees_prefix L T W st req :
  employees (db st) `prefix_of` employees (db (fst (handle L T W st req))).
Proof.
  destruct req as [uuid4 ch u|credential|ch u|data]; simpl.
  - by rewrite register_start_db.
  - destruct (register_finish_tables W st credential)
      as (_ & [[-> _]|(e & -> & _)]); [done|]. by apply prefix_app_r.
  - by rewrite login_start_db.
  - by rewrite login_finish_state.
Qed.

Lemma serve_store L T W sv actor req :
  store (fst (serve L T W sv actor req))
  = db (fst (handle L T W (state_of sv actor) req)).
Proof.
  unfold serve, state_of. by destruct (handle L T W _ req).
Qed.

Lemma serve_response L T W sv actor req :
  snd (serve L T W sv actor req) = snd (handle L T W (state_of sv actor) req).
Proof.
  unfold serve, state_of. by destruct (handle L T W _ req).
Qed.

Lemma serve_all_employees_prefix L T W reqs : ∀ sv,
  employees (store sv) `prefix_of` employees (store (serve_all L T W sv reqs)).
Proof.
  induction reqs as [|[actor req] reqs IH]; intros sv; simpl; [done|].
  etrans; [|apply IH]. rewrite serve_store.
  apply (handle_employees_prefix L T W (state_of sv actor) req).
Qed.

(** X2: No handler removes or changes an employee row: over any sequence of
    requests by any actors the employee table only grows at its end, an
    employee found by user name is found again, the same row, and
    [/register/start] for that user name is refused as taken. *)
Theorem registered_employee_stays
    (L : Libm) (T : FloatText) (W : WebAuthn) (sv : server)
    (reqs : list (nat * request)) :
  employees (store sv) `prefix_of` employees (store (serve_all L T W sv reqs))
  ∧ ∀ username e,
      get_employee_by_username (store sv) username = Some e →
      get_employee_by_username (store (serve_all L T W sv reqs)) username = Some e
      ∧ (username ≠ EmptyString →
         ∀ actor uuid4 challenge,
           snd (serve L T W (serve_all L T W sv reqs) actor
                  (RegisterStart uuid4 challenge (Some username)))
           = UsernameExists).
Proof.
  pose proof (serve_all_employees_prefix L T W reqs sv) as [k Hk].
  split; [by exists k|].
  intros username e He.
  assert (get_employee_by_username (store (serve_all L T W sv reqs)) username
          = Some e) as He'.
  { unfold get_employee_by_username in *. rewrite Hk. by apply find_app_some. }
  split; [done|].
  intros Hne actor uuid4 challenge. rewrite serve_response. simpl.
  unfold register_start. rewrite (str_truthy_ne _ Hne). simpl.
  unfold state_of at 1. simpl. by rewrite He'.
Qed.


(** ** Rows and the rows they refer to *)

Lemma attendance_owned_empty : attendance_owned empty_database.
Proof. intros r Hr. by apply elem_of_nil in Hr. Qed.

Lemma handle_attendance_owned L T W st req :
  attendance_owned (db st) → attendance_owned (db (fst (handle L T W st req))).
Proof.
  intros Hown. destruct req as [uuid4 ch u|credential|ch u|data]; simpl.
  - by rewrite register_start_db.
  - destruct (register_finish_tables W st credential)
      as (Ha & [[He _]|(e & He & _)]); intros r Hr; rewrite Ha in Hr;
      rewrite He; [by apply Hown|].
    destruct (Hown r Hr) as (e' & ? & ?). exists e'.
    split; [|done]. apply elem_of_app. by left.
  - by rewrite login_start_db.
  - by rewrite login_finish_state.
Qed.

(** X4: Every credential row and every attendance row names an employee row, and
    no request changes that: it holds of the empty database and, once it
    holds, after any sequence of requests by any actors. *)
Theorem references_stay_valid
    (L : Libm) (T : FloatText) (W : WebAuthn) (sv : server)
    (reqs : list (nat * request)) :
  credentials_owned (store sv) → attendance_owned (store sv) →
  credentials_owned (store (serve_all L T W sv reqs))
  ∧ attendance_owned (store (serve_all L T W sv reqs)).
Proof.
  revert sv. induction reqs as [|[actor req] reqs IH]; intros sv Hc Ha; simpl;
    [done|].
  apply IH; rewrite serve_store.
  - apply (handle_credentials_owned L T W (state_of sv actor) req Hc).
  - apply (handle_attendance_owned L T W (state_of sv actor) req Ha).
Qed.

Lemma references_stay_valid_witness :
  let reqs :=
    [(0, RegisterStart "handle-1" "challenge-1" (Some "alice"));
     (0, RegisterFinish (alice_attestation "challenge-1"));
     (0, LoginStart "challenge-2" (Some "alice"));
     (0, LoginFinish (login_body (alice_assertion "challenge-2" 1) at_office))] in
  let sv := serve_all small_angle_libm no_float_text toy_webauthn empty_server reqs in
  (credentials_owned (store empty_server) ∧ attendance_owned (store empty_server))
  ∧ length (credentials (store sv)) = 1
  ∧ credentials_owned (store sv) ∧ attendance_owned (store sv).
Proof.
  cbv zeta.
  split; [split; [apply credentials_owned_empty|apply attendance_owned_empty]|].
  split; [vm_compute; reflexivity|].
  apply references_stay_valid;
    [apply credentials_owned_empty|apply attendance_owned_empty].
Defined.

(** ** One credential for each employee *)

Lemma filter_at_most_one {A : Type} (f : A → Z) (l : list A) (x : Z) :
  NoDup (map f l) → length (List.filter (fun c => (f c =? x)%Z) l) ≤ 1.
Proof.
  induction l as [|a l IH]; simpl; [lia|].
  intros [Hnot Hnd]%NoDup_cons. destruct (f a =? x)%Z eqn:Heq; [|auto].
  apply Z.eqb_eq in Heq. simpl. rewrite filter_none; [simpl; lia|].
  intros y Hy. apply Z.eqb_neq. intros Hfy. apply Hnot.
  rewrite Heq, <- Hfy. apply list_elem_of_In, in_map, Hy.
Qed.

Lemma handle_one_credential_each L T W st req :
  credentials_owned (db st) → one_credential_each (db st) →
  one_credential_each (db (fst (handle L T W st req))).
Proof.
  intros Hown Hone. unfold one_credential_each in *.
  destruct req as [uuid4 ch u|credential|ch u|data]; simpl.
  - by rewrite register_start_db.
  - destruct (register_finish_tables W st credential)
      as (_ & [[_ ->]|(e & _ & Hid & _ & [->|(c & -> & Hc)])]); [done..|].
    rewrite map_app. simpl. apply NoDup_app. split_and!; [done| |apply NoDup_singleton].
    intros x Hx ->%list_elem_of_singleton.
    apply list_elem_of_In, in_map_iff in Hx as (c0 & Hc0 & Hin).
    destruct (Hown c0) as (e0 & He0 & Hid0); [by apply list_elem_of_In|].
    assert (Employee.id e0 < next_id (map Employee.id (employees (db st))))%Z.
    { apply next_id_gt, in_map, list_elem_of_In, He0. }
    lia.
  - by rewrite login_start_db.
  - by rewrite login_finish_state.
Qed.

Lemma serve_all_one_credential_each L T W reqs : ∀ sv,
  credentials_owned (store sv) → one_credential_each (store sv) →
  one_credential_each (store (serve_all L T W sv reqs)).
Proof.
  induction reqs as [|[actor req] reqs IH]; intros sv Hown Hone; simpl; [done|].
  apply IH; rewrite serve_store.
  - apply (handle_credentials_owned L T W (state_of sv actor) req Hown).
  - apply (handle_one_credential_each L T W (state_of sv actor) req Hown Hone).
Qed.

(** X5: Each registration makes a new employee, so no employee ever has two
    credentials: whatever requests the server has answered since it was
    empty, the [allow_credentials] list in a [/login/start] response has
    exactly one credential id. *)
Theorem login_start_offers_one_credential
    (L : Libm) (T : FloatText) (W : WebAuthn) (reqs : list (nat * request))
    (actor : nat) (challenge : string) (username : option string)
    (ch rp : string) (ids : list string) :
  snd (login_start challenge
         (state_of (serve_all L T W empty_server reqs) actor) username)
  = AuthenticationOptions ch rp ids →
  ∃ credential_id, ids = [credential_id].
Proof.
  pose proof (serve_all_one_credential_each L T W reqs empty_server
                credentials_owned_empty (NoDup_nil_2 (A := Z))) as Hone.
  unfold login_start. destruct (negb (str_truthy username)); [done|].
  destruct (get_employee_by_username _ _) as [e|]; [|done].
  pose proof (filter_at_most_one Credential.employee_id
                (credentials (store (serve_all L T W empty_server reqs)))
                (Employee.id e) Hone) as Hlen.
  unfold get_credentials_by_employee_id, state_of. simpl.
  destruct (List.filter _ _) as [|c [|c' cs]]; simpl in *; [done| |lia].
  intros ?; simplify_eq. by eexists.
Qed.

Lemma login_start_offers_one_credential_witness :
  let reqs :=
    [(0, RegisterStart "handle-0" "challenge-0" (Some "bob"));
     (0, RegisterFinish (attestation_of "cred-0" "challenge-0"));
     (1, RegisterStart "handle-1" "challenge-1" (Some "alice"));
     (1, RegisterFinish (alice_attestation "challenge-1"))] in
  let sv := serve_all small_angle_libm no_float_text toy_webauthn empty_server reqs in
  snd (login_start "challenge-2" (state_of sv 1) (Some "alice"))
  = AuthenticationOptions "challenge-2" RP_ID ["cred-1"]
  ∧ ∃ credential_id, ["cred-1"] = [credential_id].
Proof.
  cbv zeta.
  assert (H : snd (login_start "challenge-2"
                     (state_of
                        (serve_all small_angle_libm no_float_text toy_webauthn
                           empty_server
                           [(0, RegisterStart "handle-0" "challenge-0" (Some "bob"));
                            (0, RegisterFinish (attestation_of "cred-0" "challenge-0"));
                            (1, RegisterStart "handle-1" "challenge-1" (Some "alice"));
                            (1, RegisterFinish (alice_attestation "challenge-1"))])
                        1)
                     (Some "alice"))
              = AuthenticationOptions "challenge-2" RP_ID ["cred-1"])
    by (vm_compute; reflexivity).
  split; [exact H|].
  exact (login_start_offers_one_credential _ _ _ _ _ _ _ _ _ _ H).
Defined.

(** ** A user name whose credential was refused *)

(** X6: When [/register/finish] ends in the integrity error of the credential
    insert (the user name and the handle were free, so the employee insert
    went through), the user name is taken and has no credential: in the
    state left behind [/register/start] answers that the user name exists,
    [/login/start] answers that there is no credential, and no further
    [/register/finish] in that session succeeds. *)
Theorem refused_credential_locks_username
    (W : WebAuthn) (st : state) (credential : jvalue)
    (username user_handle : string) :
  credentials_owned (db st) →
  username ≠ EmptyString →
  session st !! "username" = Some username →
  session st !! "user_handle" = Some user_handle →
  get_employee_by_username (db st) username = None →
  get_employee_by_user_handle (db st) user_handle = None →
  snd (register_finish W st credential) = InternalServerError IntegrityError →
  let st' := fst (register_finish W st credential) in
  (∃ e, get_employee_by_username (db st') username = Some e
        ∧ get_credentials_by_employee_id (db st') (Employee.id e) = [])
  ∧ (∀ uuid4 challenge,
       register_start uuid4 challenge st' (Some username) = (st', UsernameExists))
  ∧ (∀ challenge, login_start challenge st' (Some username) = (st', NoCredentials))
  ∧ (∀ credential', is_success (snd (register_finish W st' credential')) = false).
Proof.
  intros Hown Hne Hu Hh Hfree Hfresh Hr st'. subst st'.
  assert (Hex : existsb (fun e => String.eqb (Employee.username e) username
                                  || String.eqb (Employee.user_handle e) user_handle)
                  (employees (db st)) = false)
    by (apply existsb_orb_false; by apply find_none_existsb).
  pose proof (register_finish_cases W st credential) as H.
  destruct (register_finish W st credential) as [st1 r]. simpl in *. subst r.
  inversion H as
    [ | |ch u uh v _ _ Hu' Hh' _ He|ch u uh v d1 e _ _ Hu' Hh' _ He Hc| ]; subst;
    rewrite Hu in Hu'; rewrite Hh in Hh'; simplify_eq.
  { unfold add_employee in He. by rewrite Hex in He. }
  destruct (add_employee_cases (db st) u uh)
    as [[He' _]|(e' & He' & Hid & Hun & _)]; rewrite He' in He; simplify_eq.
  assert (Hfind : get_employee_by_username
                    {| employees := employees (db st) ++ [e];
                       credentials := credentials (db st);
                       attendance := attendance (db st) |} (Employee.username e)
                  = Some e).
  { unfold get_employee_by_username. simpl.
    apply find_app_none; [by apply find_none_existsb|apply String.eqb_refl]. }
  assert (Hnone : get_credentials_by_employee_id
                    {| employees := employees (db st) ++ [e];
                       credentials := credentials (db st);
                       attendance := attendance (db st) |} (Employee.id e) = []).
  { unfold get_credentials_by_employee_id. simpl. apply filter_none.
    intros c0 Hc0. apply Z.eqb_neq. intros Heq.
    destruct (Hown c0) as (e0 & He0 & Hid0); [by apply list_elem_of_In|].
    assert (Employee.id e0 < next_id (map Employee.id (employees (db st))))%Z.
    { apply next_id_gt, in_map, list_elem_of_In, He0. }
    lia. }
  split_and!.
  - by exists e.
  - intros uuid4 challenge. unfold register_start.
    rewrite (str_truthy_ne _ Hne). simpl. by rewrite Hfind.
  - intros challenge. unfold login_start.
    rewrite (str_truthy_ne _ Hne). simpl. by rewrite Hfind, Hnone.
  - intros credential'.
    match goal with
    | |- is_success (snd (register_finish W ?s _)) = false => set (st' := s)
    end.
    pose proof (register_finish_cases W st' credential') as H'.
    destruct (register_finish W st' credential') as [st2 r]. simpl in *.
    destruct r; try done.
    inversion H' as [ | | | |ch' u' uh' v' d1' e' d2' _ _ Hu' _ _ _ Hadd _]; subst.
    simpl in Hu'. rewrite Hu in Hu'. simplify_eq.
    unfold add_employee in Hadd. simpl in Hadd.
    rewrite existsb_app in Hadd. simpl in Hadd.
    rewrite String.eqb_refl in Hadd. simpl in Hadd.
    by rewrite orb_true_r in Hadd.
Qed.

Lemma refused_credential_locks_username_witness :
  let credential := attestation_of "cred-1" "challenge-1" in
  let st' := fst (toy_register_finish alice_pending_after_bob credential) in
  snd (toy_register_finish alice_pending_after_bob credential)
  = InternalServerError IntegrityError
  ∧ register_start "handle-2" "challenge-2" st' (Some "alice") = (st', UsernameExists)
  ∧ login_start "challenge-2" st' (Some "alice") = (st', NoCredentials).
Proof.
  cbv zeta.
  assert (Hr : snd (register_finish toy_webauthn alice_pending_after_bob
                      (attestation_of "cred-1" "challenge-1"))
               = InternalServerError IntegrityError) by (vm_compute; reflexivity).
  split; [exact Hr|].
  assert (Hown : credentials_owned (db alice_pending_after_bob)).
  { intros c Hc. vm_compute in Hc.
    apply list_elem_of_singleton in Hc as ->.
    eexists. split; [apply list_elem_of_singleton; reflexivity|reflexivity]. }
  destruct (refused_credential_locks_username toy_webauthn alice_pending_after_bob
              (attestation_of "cred-1" "challenge-1") "alice" "handle-1" Hown)
    as (_ & Hstart & Hlogin & _); [done..|].
  split; [apply Hstart|apply Hlogin].
Defined.

(** ** The credential query of [/login/finish] *)

Lemma handle_attendance L T W st req :
  attendance (db (fst (handle L T W st req))) = attendance (db st).
Proof.
  destruct req as [uuid4 ch u|credential|ch u|data]; simpl.
  - by rewrite register_start_db.
  - by destruct (register_finish_tables W st credential) as [-> _].
  - by rewrite login_start_db.
  - by rewrite login_finish_state.
Qed.

Lemma handle_credentials_prefix L T W st req :
  credentials (db st) `prefix_of` credentials (db (fst (handle L T W st req))).
Proof.
  destruct req as [uuid4 ch u|credential|ch u|data]; simpl.
  - by rewrite register_start_db.
  - destruct (register_finish_tables W st credential)
      as (_ & [[_ ->]|(e & _ & _ & _ & [->|(c & -> & _)])]); [done..|].
    by apply prefix_app_r.
  - by rewrite login_start_db.
  - by rewrite login_finish_state.
Qed.

(** X7: No [/login/finish] succeeds.  The query of line 196 binds the [str]
    id of the parsed assertion to the [LargeBinary] column and raises before
    a row is compared, inside the [try]: a request that passes the input
    validation and the geofence with a pending challenge, whose credential
    [parse_raw] reads and whose user handle names an employee, is answered
    the authentication-failed error.  Hence [/login/finish] never answers
    success or 'Credential not found' and changes nothing, and over any
    sequence of requests by any actors no attendance row is written and no
    credential row changes: the counters stay what the registrations
    wrote. *)
Theorem login_finish_never_succeeds (L : Libm) (T : FloatText) (W : WebAuthn) :
  (∀ st data,
     fst (login_finish L T W st data) = st
     ∧ is_success (snd (login_finish L T W st data)) = false
     ∧ snd (login_finish L T W st data) ≠ CredentialNotFound)
  ∧ (∀ st data credential lat lon dist challenge a h e,
       login_request data credential lat lon →
       geofence L lat lon = Return (dist, false) →
       session st !! "challenge" = Some challenge →
       challenge ≠ EmptyString →
       parse_raw_credential T W credential = Return a →
       AuthenticationCredential.user_handle a = Some h →
       utf8_valid h = true →
       get_employee_by_user_handle (db st) h = Some e →
       login_finish L T W st data = (st, AuthenticationFailed TypeError))
  ∧ (∀ sv reqs,
       attendance (store (serve_all L T W sv reqs)) = attendance (store sv)
       ∧ credentials (store sv)
         `prefix_of` credentials (store (serve_all L T W sv reqs))).
Proof.
  split_and!.
  - intros st data. split_and!;
      [apply login_finish_state|apply login_finish_not_success|].
    destruct (login_finish_cases L T W st data) as
      [r ? Hr| | | | |credential lat lon dist challenge st' r ? ? ? ? Ht];
      try done.
    + by destruct Hr as [->|[->| ->]].
    + by apply login_finish_try_cases in Ht as [_ ->].
  - intros st data credential lat lon dist challenge a h e
      Hreq Hg Hch Hne Ha Hh Hutf He.
    rewrite (login_finish_past_geofence _ _ _ _ _ _ _ _ _ _ Hreq Hg Hch Hne).
    unfold login_finish_try. rewrite Ha. simpl. rewrite Hh. simpl.
    unfold decode_utf8. rewrite Hutf. simpl. by rewrite He.
  - intros sv reqs. revert sv.
    induction reqs as [|[actor req] reqs IH]; intros sv; simpl; [done|].
    destruct (IH (fst (serve L T W sv actor req))) as [-> Hp].
    rewrite serve_store in *. split.
    + apply (handle_attendance L T W (state_of sv actor) req).
    + etrans; [|exact Hp].
      apply (handle_credentials_prefix L T W (state_of sv actor) req).
Qed.

Lemma login_finish_never_succeeds_witness :
  let credential := alice_assertion "challenge-2" 1 in
  valid_assertion toy_webauthn alice_login_pending credential
  ∧ get_employee_by_user_handle (db alice_login_pending) "handle-1"
    = Some {| Employee.id := 1; Employee.user_handle := "handle-1";
              Employee.username := "alice" |}
  ∧ toy_login_finish alice_login_pending (login_body credential at_office)
    = (alice_login_pending, AuthenticationFailed TypeError).
Proof.
  cbv zeta. split.
  { eexists _, "challenge-2", _, 1%Z. split_and!; vm_compute; reflexivity. }
  assert (He : get_employee_by_user_handle (db alice_login_pending) "handle-1"
               = Some {| Employee.id := 1; Employee.user_handle := "handle-1";
                         Employee.username := "alice" |})
    by (vm_compute; reflexivity).
  split; [exact He|].
  destruct (login_finish_never_succeeds small_angle_libm no_float_text toy_webauthn)
    as (_ & H & _).
  eapply (H alice_login_pending _ (alice_assertion "challenge-2" 1)
            (JFloat OFFICE_LATITUDE) (JFloat OFFICE_LONGITUDE) 0%float
            "challenge-2" _ "handle-1" _);
    try (vm_compute; reflexivity); try exact He; try done.
  eexists _, _. split_and!; try reflexivity; try (vm_compute; reflexivity).
  discriminate.
Defined.

(** ** Requests that end in an unhandled error *)

(** X8: A latitude or longitude that is not a number (a string, a list, a dict)
    passes the check for presence and makes [distance] raise a type error,
    which nothing catches: the response is an internal server error, not a
    400, and the state is unchanged. *)
Theorem non_number_coordinate_unhandled
    (L : Libm) (T : FloatText) (W : WebAuthn) (st : state)
    (data credential lat lon : jvalue) :
  login_request data credential lat lon →
  is_number lat = false
  ∨ ((∃ x, as_double lat = Return x) ∧ is_number lon = false) →
  login_finish L T W st data = (st, InternalServerError TypeError).
Proof.
  intros Hreq Hbad. eapply login_finish_geofence_error; [done|].
  unfold geofence, distance.
  destruct Hbad as [Hlat|[[x Hx] Hlon]].
  - by destruct lat.
  - rewrite Hx. simpl. by destruct lon.
Qed.

Lemma non_number_coordinate_unhandled_witness :
  let location :=
    JObj [("latitude", JStr "37.7749"); ("longitude", JStr "-122.4194")] in
  toy_login_finish alice_login_pending
    (login_body (alice_assertion "challenge-2" 1) location)
  = (alice_login_pending, InternalServerError TypeError).
Proof.
  cbv zeta.
  apply (non_number_coordinate_unhandled small_angle_libm no_float_text toy_webauthn
           alice_login_pending _ (alice_assertion "challenge-2" 1)
           (JStr "37.7749") (JStr "-122.4194")).
  - eexists _, _. split_and!; try reflexivity. discriminate.
  - by left.
Defined.

(** X9: A request body that is not an object, or a [location] that is present
    and is not an object, has no [get] method: [/login/finish] ends in an
    unhandled attribute error and the state is unchanged. *)
Theorem location_not_object_unhandled
    (L : Libm) (T : FloatText) (W : WebAuthn) (st : state) (data : jvalue) :
  (∀ fields, data ≠ JObj fields)
  ∨ (∃ fields,
       data = JObj fields
       ∧ truthy (dict_get "credential" fields) = true
       ∧ truthy (dict_get "location" fields) = true
       ∧ ∀ loc, dict_get "location" fields ≠ JObj loc) →
  login_finish L T W st data = (st, InternalServerError AttributeError).
Proof.
  intros [Hno|(fields & -> & Hc & Hl & Hno)]; unfold login_finish.
  - destruct data; try done. by destruct (Hno fields).
  - simpl. rewrite Hc, Hl. simpl.
    destruct (dict_get "location" fields); try done. by destruct (Hno fields0).
Qed.

Lemma location_not_object_unhandled_witness :
  toy_login_finish alice_login_pending
    (login_body (alice_assertion "challenge-2" 1) (JStr "37.7749,-122.4194"))
  = (alice_login_pending, InternalServerError AttributeError).
Proof.
  apply location_not_object_unhandled. right.
  eexists. split_and!; [reflexivity|reflexivity|reflexivity|].
  intros loc. discriminate.
Defined.

(** ** One challenge for two ceremonies *)

(** X10: Both ceremonies keep their challenge under the same session key.  After
    [/register/start] and then a [/login/start] that succeeds in the same
    session, the pending user name and handle are still there but the
    challenge is the one of the login: a [/register/finish] succeeds only
    with an attestation that verifies against the login's challenge. *)
Theorem login_start_replaces_registration_challenge
    (W : WebAuthn) (st : state) (uuid4 c1 c2 username : string)
    (other : option string) (ids : list string) (credential : jvalue) :
  snd (register_start uuid4 c1 st (Some username))
  = RegistrationOptions c1 RP_ID RP_NAME uuid4 username →
  let st1 := fst (register_start uuid4 c1 st (Some username)) in
  snd (login_start c2 st1 other) = AuthenticationOptions c2 RP_ID ids →
  let st2 := fst (login_start c2 st1 other) in
  session st2 !! "challenge" = Some c2
  ∧ session st2 !! "username" = Some username
  ∧ session st2 !! "user_handle" = Some uuid4
  ∧ (is_success (snd (register_finish W st2 credential)) = true →
     is_Some (verify_registration_response W credential c2 ORIGIN RP_ID)).
Proof.
  intros Hreg st1 Hlog st2. subst st2 st1.
  unfold register_start in *.
  destruct (negb (str_truthy (Some username))); [done|].
  simpl in *. destruct (get_employee_by_username (db st) username); [done|].
  simpl in *. unfold login_start in *.
  destruct (negb (str_truthy other)); [done|].
  destruct (get_employee_by_username _ _) as [e|]; [|done].
  destruct (get_credentials_by_employee_id _ _) as [|c cs]; [done|].
  simpl in *.
  assert (Hc : (<["challenge" := c2]>
                  (<["user_handle" := uuid4]>
                     (<["username" := username]>
                        (<["challenge" := c1]> (session st)))))
               !! "challenge" = Some c2) by (by simplify_map_eq).
  split_and!; [done|by simplify_map_eq..|].
  intros Hok.
  match type of Hok with
  | is_success (snd (register_finish W ?s _)) = true => set (st2 := s) in *
  end.
  pose proof (register_finish_cases W st2 credential) as H.
  destruct (register_finish W st2 credential) as [st3 r]. simpl in *.
  destruct r; try done.
  inversion H as [ | | | |ch' u' uh' v' d1' e' d2' _ Hch' _ _ _ Hv' _ _]; subst.
  simpl in Hch'. rewrite Hc in Hch'. simplify_eq. by rewrite Hv'.
Qed.

Lemma login_start_replaces_registration_challenge_witness :
  let st1 := alice_pending_after_bob in
  let st2 := fst (login_start "challenge-9" st1 (Some "bob")) in
  snd (toy_register_finish st1 (attestation_of "cred-2" "challenge-1"))
  = Success "alice"
  ∧ session st2 !! "challenge" = Some "challenge-9"
  ∧ session st2 !! "username" = Some "alice"
  ∧ snd (toy_register_finish st2 (attestation_of "cred-2" "challenge-1"))
    = RegistrationFailed.
Proof.
  cbv zeta. split; [vm_compute; reflexivity|].
  destruct (login_start_replaces_registration_challenge toy_webauthn bob_registered
              "handle-1" "challenge-1" "challenge-9" "alice" (Some "bob") ["cred-1"]
              (attestation_of "cred-2" "challenge-1"))
    as (Hc & Hu & _); [vm_compute; reflexivity..|].
  split; [exact Hc|]. split; [exact Hu|]. vm_compute; reflexivity.
Defined.

(** ** A coordinate that is not a number at all *)

Lemma add_nan_l (y : float) : (nan + y)%float = nan.
Proof.
  apply Prim2SF_inj. rewrite add_spec.
  change (Prim2SF nan) with S754_nan. by destruct (Prim2SF y).
Qed.

Lemma add_nan_r (y : float) : (y + nan)%float = nan.
Proof.
  apply Prim2SF_inj. rewrite add_spec.
  change (Prim2SF nan) with S754_nan. by destruct (Prim2SF y).
Qed.

Lemma mul_nan_r (y : float) : (y * nan)%float = nan.
Proof.
  apply Prim2SF_inj. rewrite mul_spec.
  change (Prim2SF nan) with S754_nan. by destruct (Prim2SF y).
Qed.

Lemma math_1_nan func : math_1 func nan = Return (func nan).
Proof.
  unfold math_1. change (is_nan nan) with true. change (is_finite nan) with false.
  by rewrite !andb_false_r.
Qed.

Lemma math_2_nan func : math_2 func nan nan = Return (func nan nan).
Proof.
  unfold math_2. change (is_nan nan) with true. change (is_finite nan) with false.
  simpl. by rewrite !andb_false_r.
Qed.

Lemma distance_tail_nan L :
  nan_propagating L →
  (let! q1 := sqrt nan in
   let! q2 := sqrt (1 - nan) in
   let! t := atan2 L q1 q2 in
   Return (6371e3 * (2 * t))%float) = Return nan.
Proof.
  intros [_ Hatan]. unfold sqrt, atan2.
  change (1 - nan)%float with nan. rewrite math_1_nan.
  change (PrimFloat.sqrt nan) with nan. simpl.
  rewrite math_2_nan, Hatan. reflexivity.
Qed.

Lemma distance_nan L lat lon d :
  nan_propagating L →
  lat = JFloat nan ∨ ((∃ x, as_double lat = Return x) ∧ lon = JFloat nan) →
  distance L lat lon OFFICE_LATITUDE OFFICE_LONGITUDE = Return d →
  d = nan.
Proof.
  intros Hnan Hbad. pose proof Hnan as [Hsin _]. unfold distance.
  destruct Hbad as [->|[[x Hx] ->]].
  - cbn [as_double bind].
    destruct (as_double lon) as [y|]; [|done]. cbn [bind].
    change (radians (OFFICE_LATITUDE - nan) / 2)%float with nan.
    change (radians nan) with nan.
    unfold sin at 1. rewrite math_1_nan, Hsin. cbn [bind].
    change (pow2 L nan) with (Return nan). cbn [bind].
    destruct (cos L nan) as [c1|]; [|done]. cbn [bind].
    destruct (cos L _) as [c2|]; [|done]. cbn [bind].
    destruct (sin L _) as [s2|]; [|done]. cbn [bind].
    destruct (pow2 L s2) as [p2|]; [|done]. cbn [bind].
    rewrite add_nan_l, (distance_tail_nan L Hnan). congruence.
  - rewrite Hx. cbn [as_double bind].
    change (radians (OFFICE_LONGITUDE - nan) / 2)%float with nan.
    destruct (sin L _) as [s1|]; [|done]. cbn [bind].
    destruct (pow2 L s1) as [p1|]; [|done]. cbn [bind].
    destruct (cos L _) as [c1|]; [|done]. cbn [bind].
    destruct (cos L _) as [c2|]; [|done]. cbn [bind].
    unfold sin at 1. rewrite math_1_nan, Hsin. cbn [bind].
    change (pow2 L nan) with (Return nan). cbn [bind].
    rewrite mul_nan_r, add_nan_r, (distance_tail_nan L Hnan). congruence.
Qed.

(** X11: A latitude or longitude that is NaN passes the check for presence, and
    with a C library that maps NaN to NaN every distance that [distance]
    returns for it is NaN, which is not greater than the allowed distance:
    [/login/finish] never answers such a request with the out-of-range
    error. *)
Theorem nan_coordinate_passes_geofence
    (L : Libm) (T : FloatText) (W : WebAuthn) (st : state)
    (data credential lat lon : jvalue) :
  nan_propagating L →
  login_request data credential lat lon →
  lat = JFloat nan ∨ ((∃ x, as_double lat = Return x) ∧ lon = JFloat nan) →
  (∀ d, distance L lat lon OFFICE_LATITUDE OFFICE_LONGITUDE = Return d →
        geofence L lat lon = Return (nan, false))
  ∧ (∀ dist, snd (login_finish L T W st data) ≠ OutOfRange dist).
Proof.
  intros Hnan Hreq Hbad. split.
  - intros d Hd. pose proof (distance_nan L lat lon d Hnan Hbad Hd) as ->.
    unfold geofence. by rewrite Hd.
  - intros dist Hr.
    destruct (login_finish L T W st data) as [st' r] eqn:Heq. simpl in Hr. subst r.
    destruct (login_finish_out_of_range_inv _ _ _ _ _ _ _ _ _ _ Hreq Heq)
      as [_ Hg].
    apply geofence_distance in Hg as [Hd Hout].
    pose proof (distance_nan L lat lon dist Hnan Hbad Hd) as ->.
    done.
Qed.

Lemma nan_coordinate_passes_geofence_witness :
  let nowhere :=
    JObj [("latitude", JFloat nan); ("longitude", JFloat OFFICE_LONGITUDE)] in
  let data := login_body (alice_assertion "challenge-2" 1) nowhere in
  nan_propagating small_angle_libm
  ∧ geofence small_angle_libm (JFloat nan) (JFloat OFFICE_LONGITUDE)
    = Return (nan, false)
  ∧ snd (toy_login_finish empty_state data) = MissingChallenge.
Proof.
  cbv zeta.
  assert (Hnan : nan_propagating small_angle_libm) by (split; reflexivity).
  split; [exact Hnan|]. split; [|vm_compute; reflexivity].
  eapply (nan_coordinate_passes_geofence small_angle_libm no_float_text
            toy_webauthn alice_login_pending
            (login_body (alice_assertion "challenge-2" 1)
               (JObj [("latitude", JFloat nan);
                      ("longitude", JFloat OFFICE_LONGITUDE)]))
            (alice_assertion "challenge-2" 1) (JFloat nan)
            (JFloat OFFICE_LONGITUDE) Hnan).
  - eexists _, _. split_and!; try reflexivity. discriminate.
  - by left.
  - vm_compute. reflexivity.
Defined.

(** ** Credentials that [parse_raw] reads back *)

Lemma jvalue_nested_ind (P : jvalue → Prop) :
  P JNull → (∀ b, P (JBool b)) → (∀ z, P (JInt z)) → (∀ f, P (JFloat f)) →
  (∀ s, P (JStr s)) →
  (∀ items, Forall P items → P (JArr items)) →
  (∀ fields, Forall (fun kv => P (snd kv)) fields → P (JObj fields)) →
  ∀ v, P v.
Proof.
  intros Hnull Hbool Hint Hfloat Hstr Harr Hobj.
  fix IH 1. intros [| b | z | f | s | items | fields].
  - exact Hnull.
  - apply Hbool.
  - apply Hint.
  - apply Hfloat.
  - apply Hstr.
  - apply Harr. induction items as [|x items IHitems]; constructor;
      [apply IH|exact IHitems].
  - apply Hobj. induction fields as [|[k x] fields IHfields]; constructor;
      [apply IH|exact IHfields].
Qed.

Lemma plain_char_inv c :
  plain_char c = true →
  Ascii.eqb c squote = false ∧ Ascii.eqb c dquote = false
  ∧ Ascii.eqb c backslash = false ∧ (ord c <? 32) = false
  ∧ (ord c =? 127) = false
  ∧ Ascii.eqb c (chr 9) = false ∧ Ascii.eqb c (chr 10) = false
  ∧ Ascii.eqb c (chr 13) = false.
Proof.
  unfold plain_char. intros H.
  apply andb_prop in H as [H Hlt]. apply andb_prop in H as [H Hge].
  apply andb_prop in H as [H Hb]. apply andb_prop in H as [Hs Hd].
  apply negb_true_iff in Hs, Hd, Hb.
  apply Nat.leb_le in Hge. apply Nat.ltb_lt in Hlt.
  split_and!; try done.
  - apply Nat.ltb_ge. lia.
  - apply Nat.eqb_neq. lia.
  - destruct (Ascii.eqb_spec c (chr 9)) as [->|]; [|done]. vm_compute in Hge. lia.
  - destruct (Ascii.eqb_spec c (chr 10)) as [->|]; [|done]. vm_compute in Hge. lia.
  - destruct (Ascii.eqb_spec c (chr 13)) as [->|]; [|done]. vm_compute in Hge. lia.
Qed.

Lemma plain_text_no_squote s : plain_text s = true → contains_char squote s = false.
Proof.
  induction s as [|c s IH]; [done|]. cbn [plain_text contains_char].
  intros [Hc Hs]%andb_prop. apply plain_char_inv in Hc as (Hq & _).
  by rewrite Ascii.eqb_sym, Hq, IH.
Qed.

Lemma plain_text_repr_chars s : plain_text s = true → repr_chars squote s = s.
Proof.
  induction s as [|c s IH]; [done|]. cbn [plain_text repr_chars].
  intros [Hc Hs]%andb_prop. rewrite (IH Hs).
  apply plain_char_inv in Hc as (Hq & _ & Hb & Hlo & Hdel & H9 & H10 & H13).
  unfold repr_char. by rewrite Hq, Hb, H9, H10, H13, Hlo, Hdel.
Qed.

Lemma plain_text_replace s : plain_text s = true → replace_char squote dquote s = s.
Proof.
  induction s as [|c s IH]; [done|]. cbn [plain_text replace_char].
  intros [Hc Hs]%andb_prop. rewrite (IH Hs).
  apply plain_char_inv in Hc as (Hq & _). by rewrite Hq.
Qed.

Lemma append_assoc (s1 s2 s3 : string) : (s1 +:+ s2) +:+ s3 = s1 +:+ s2 +:+ s3.
Proof.
  induction s1 as [|c s1 IH]; [done|].
  change (String c ((s1 +:+ s2) +:+ s3) = String c (s1 +:+ s2 +:+ s3)).
  by rewrite IH.
Qed.

Lemma replace_char_app old new s1 s2 :
  replace_char old new (s1 +:+ s2)
  = replace_char old new s1 +:+ replace_char old new s2.
Proof. induction s1 as [|c s1 IH]; simpl; [done|]. by rewrite IH. Qed.

Lemma replace_char_join old new sep parts :
  replace_char old new (join sep parts)
  = join (replace_char old new sep) (map (replace_char old new) parts).
Proof.
  induction parts as [|p [|q parts] IH]; [done..|].
  cbn [join map] in *. by rewrite !replace_char_app, IH.
Qed.

(** The text of a plain string: the string between double quotes. *)
Lemma raw_text_str s :
  plain_text s = true →
  replace_char squote dquote (repr_str s) = String dquote (s +:+ str1 dquote).
Proof.
  intros Hs. unfold repr_str. rewrite (plain_text_no_squote s Hs). cbn [andb].
  rewrite (plain_text_repr_chars s Hs). cbn [replace_char].
  change (Ascii.eqb squote squote) with true. cbv iota.
  by rewrite replace_char_app, (plain_text_replace s Hs).
Qed.

Lemma raw_text_arr T items :
  raw_text T (JArr items)
  = String "[" (join ", " (map (raw_text T) items) +:+ "]").
Proof.
  unfold raw_text.
  change (py_repr T (JArr items))
    with ("[" +:+ join ", " (map (py_repr T) items) +:+ "]").
  rewrite !replace_char_app, replace_char_join, map_map. reflexivity.
Qed.

Lemma raw_text_obj T fields :
  raw_text T (JObj fields)
  = String "{" (join ", " (map (raw_field T) fields) +:+ "}").
Proof.
  unfold raw_text.
  change (py_repr T (JObj fields))
    with ("{" +:+ join ", "
                    (map (fun kv => repr_str (fst kv) +:+ ": " +:+ py_repr T (snd kv))
                         fields) +:+ "}").
  rewrite !replace_char_app, replace_char_join, map_map.
  cbn [replace_char String.append]. do 2 f_equal. f_equal.
  apply map_ext. intros [k v]. unfold raw_field, raw_text.
  by rewrite !replace_char_app.
Qed.

Lemma json_run_app T st s1 s2 :
  json_run T st (s1 +:+ s2)
  = match json_run T st s1 with
    | Some st' => json_run T st' s2
    | None => None
    end.
Proof.
  revert st. induction s1 as [|c s1 IH]; intros st; [done|].
  simpl. destruct (json_step T st c); [apply IH|done].
Qed.

(** The characters of a plain string, read inside a string literal. *)
Lemma json_run_plain_text T s : ∀ acc stack,
  plain_text s = true →
  json_run T (MString acc None, stack) s
  = Some (MString (rev (list_ascii_of_string s) ++ acc) None, stack).
Proof.
  induction s as [|c s IH]; intros acc stack; [done|].
  cbn [plain_text json_run list_ascii_of_string]. intros [Hc Hs]%andb_prop.
  apply plain_char_inv in Hc as (_ & Hd & Hb & Hlo & _).
  cbn [json_step]. rewrite Hb. unfold string_char. cbn [flush]. rewrite Hd, Hlo.
  rewrite (IH _ _ Hs). cbn [rev]. by rewrite <- app_assoc.
Qed.

Lemma text_of_rev s : text_of (rev (list_ascii_of_string s) ++ []) = s.
Proof.
  unfold text_of. by rewrite app_nil_r, rev_involutive, string_of_list_ascii_of_string.
Qed.

(** A plain string between double quotes, read as a value. *)
Lemma json_run_string_value T s m stack :
  plain_text s = true → value_mode m = true → value_slot stack = true →
  json_run T (m, stack) (String dquote (s +:+ str1 dquote))
  = push_value (JStr s) stack.
Proof.
  intros Hs Hm Hslot. cbn [json_run].
  assert (json_step T (m, stack) dquote = Some (MString [] None, stack)) as ->
    by (by destruct m).
  rewrite json_run_app, (json_run_plain_text T s _ _ Hs). cbn [str1 json_run].
  cbn [json_step]. change (Ascii.eqb dquote backslash) with false. cbv iota.
  unfold string_char. cbn [flush]. change (Ascii.eqb dquote dquote) with true.
  cbv iota. unfold end_string. rewrite text_of_rev.
  destruct stack as [|[] ?]; try done. all: by destruct (push_value _ _).
Qed.

(** The same, read as a key. *)
Lemma json_run_string_key T s m fields stack :
  plain_text s = true → key_mode m = true →
  json_run T (m, FObj fields :: stack) (String dquote (s +:+ str1 dquote))
  = Some (MColon, FKey fields s :: stack).
Proof.
  intros Hs Hm. cbn [json_run].
  assert (json_step T (m, FObj fields :: stack) dquote
          = Some (MString [] None, FObj fields :: stack)) as ->
    by (by destruct m).
  rewrite json_run_app, (json_run_plain_text T s _ _ Hs). cbn [str1 json_run].
  cbn [json_step]. change (Ascii.eqb dquote backslash) with false. cbv iota.
  unfold string_char. cbn [flush]. change (Ascii.eqb dquote dquote) with true.
  cbv iota. unfold end_string. by rewrite text_of_rev.
Qed.

Lemma distinct_fresh k : ∀ l1 l2,
  distinct (l1 ++ k :: l2) = true → existsb (String.eqb k) l1 = false.
Proof.
  induction l1 as [|k' l1 IH]; intros l2; [done|]. cbn [app distinct existsb].
  intros [Hk' Hd]%andb_prop. rewrite (IH _ Hd), orb_false_r.
  apply negb_true_iff in Hk'. rewrite existsb_app in Hk'.
  apply orb_false_elim in Hk' as [_ Hk']. cbn [existsb] in Hk'.
  apply orb_false_elim in Hk' as [Hk' _]. by rewrite String.eqb_sym.
Qed.

Lemma dict_set_fresh k v : ∀ fields,
  existsb (String.eqb k) (map fst fields) = false →
  dict_set fields k v = fields ++ [(k, v)].
Proof.
  induction fields as [|[k' v'] fields IH]; [done|]. cbn [map fst existsb dict_set].
  intros [-> Hf]%orb_false_elim. by rewrite (IH Hf).
Qed.

Lemma json_run_items T : ∀ items,
  Forall (reads_back T) items →
  forallb plain_value items = true →
  items ≠ [] →
  ∀ m seen stack,
    value_mode m = true →
    json_run T (m, FArr seen :: stack) (join ", " (map (raw_text T) items) +:+ "]")
    = push_value (JArr (rev seen ++ items)) stack.
Proof.
  induction items as [|x [|y items] IH]; intros Hall Hplain Hne m seen stack Hm;
    [done| |];
    apply Forall_cons in Hall as [Hx Hall]; cbn [forallb] in Hplain;
    apply andb_prop in Hplain as [Hpx Hplain].
  - cbn [map join]. rewrite json_run_app.
    rewrite (Hx Hpx m (FArr seen :: stack) Hm eq_refl). simpl.
    by destruct (push_value _ _).
  - change (join ", " (map (raw_text T) (x :: y :: items)))
      with (raw_text T x +:+ ", " +:+ join ", " (map (raw_text T) (y :: items))).
    rewrite !append_assoc. rewrite json_run_app.
    rewrite (Hx Hpx m (FArr seen :: stack) Hm eq_refl). cbn [push_value].
    rewrite json_run_app.
    change (json_run T (MAfter, FArr (x :: seen) :: stack) ", ")
      with (Some (MValue, FArr (x :: seen) :: stack)). cbv beta iota.
    rewrite (IH Hall Hplain ltac:(done) MValue (x :: seen) stack eq_refl).
    cbn [rev]. by rewrite <- app_assoc.
Qed.

Lemma json_run_fields T : ∀ fields,
  Forall (fun kv => reads_back T (snd kv)) fields →
  forallb (fun kv => plain_text (fst kv) && plain_value (snd kv)) fields = true →
  fields ≠ [] →
  ∀ m seen stack,
    key_mode m = true →
    distinct (map fst (seen ++ fields)) = true →
    json_run T (m, FObj seen :: stack)
      (join ", " (map (raw_field T) fields) +:+ "}")
    = push_value (JObj (seen ++ fields)) stack.
Proof.
  induction fields as [|[k x] [|kv fields] IH];
    intros Hall Hplain Hne m seen stack Hm Hd; [done| |];
    apply Forall_cons in Hall as [Hx Hall]; cbn [forallb fst snd] in Hplain;
    apply andb_prop in Hplain as [Hkx Hplain];
    apply andb_prop in Hkx as [Hk Hpx]; cbn [snd] in Hx;
    pose proof Hd as Hfresh; rewrite map_app in Hfresh;
    apply distinct_fresh in Hfresh.
  - cbn [map join]. unfold raw_field at 1. cbn [fst snd].
    rewrite (raw_text_str k Hk), !append_assoc.
    rewrite json_run_app, (json_run_string_key T k m seen stack Hk Hm).
    rewrite json_run_app.
    change (json_run T (MColon, FKey seen k :: stack) ": ")
      with (Some (MValue, FKey seen k :: stack)). cbv beta iota.
    rewrite json_run_app.
    rewrite (Hx Hpx MValue (FKey seen k :: stack) eq_refl eq_refl).
    cbn [push_value]. rewrite (dict_set_fresh k x seen Hfresh). simpl.
    by destruct (push_value _ _).
  - change (join ", " (map (raw_field T) ((k, x) :: kv :: fields)))
      with (raw_field T (k, x) +:+ ", "
            +:+ join ", " (map (raw_field T) (kv :: fields))).
    unfold raw_field at 1. cbn [fst snd].
    rewrite (raw_text_str k Hk), !append_assoc.
    rewrite json_run_app, (json_run_string_key T k m seen stack Hk Hm).
    rewrite json_run_app.
    change (json_run T (MColon, FKey seen k :: stack) ": ")
      with (Some (MValue, FKey seen k :: stack)). cbv beta iota.
    rewrite json_run_app.
    rewrite (Hx Hpx MValue (FKey seen k :: stack) eq_refl eq_refl).
    cbn [push_value]. rewrite (dict_set_fresh k x seen Hfresh).
    rewrite json_run_app.
    change (json_run T (MAfter, FObj (seen ++ [(k, x)]) :: stack) ", ")
      with (Some (MKey, FObj (seen ++ [(k, x)]) :: stack)). cbv beta iota.
    rewrite (IH Hall Hplain ltac:(done) MKey (seen ++ [(k, x)]) stack eq_refl).
    + by rewrite <- app_assoc.
    + by rewrite <- app_assoc.
Qed.

Lemma plain_value_reads_back T : ∀ v, reads_back T v.
Proof.
  induction v as [| | | |s|items IH|fields IH] using jvalue_nested_ind;
    unfold reads_back; try done; intros Hp m stack Hm Hslot.
  - unfold raw_text. cbn [py_repr]. rewrite (raw_text_str s Hp).
    by apply json_run_string_value.
  - rewrite raw_text_arr. cbn [json_run].
    assert (json_step T (m, stack) "[" = Some (MValueOrClose, FArr [] :: stack))
      as -> by (by destruct m).
    destruct items as [|x items].
    + simpl. by destruct (push_value _ _).
    + by rewrite (json_run_items T (x :: items) IH Hp ltac:(done)
                    MValueOrClose [] stack eq_refl).
  - rewrite raw_text_obj. cbn [json_run].
    assert (json_step T (m, stack) "{" = Some (MKeyOrClose, FObj [] :: stack))
      as -> by (by destruct m).
    cbn [plain_value] in Hp. apply andb_prop in Hp as [Hp Hd].
    destruct fields as [|kv fields].
    + simpl. by destruct (push_value _ _).
    + by rewrite (json_run_fields T (kv :: fields) IH Hp ltac:(done)
                    MKeyOrClose [] stack eq_refl Hd).
Qed.

(** X12: The round trip of line 189 for a plain credential.  When the credential
    is a dict or a list whose keys and strings are plain text (printable
    ASCII without quote and backslash), each dict having each key once, the
    text of [str(credential)] with its single quotes replaced is JSON for
    that same value: [json.loads] gives the credential back, and
    [parse_raw] validates exactly the object that the client sent. *)
Theorem plain_credential_read_back
    (T : FloatText) (W : WebAuthn) (credential : jvalue) :
  plain_value credential = true →
  (∀ s, credential ≠ JStr s) →
  json_loads T (replace_char squote dquote (py_str T credential))
  = Return credential
  ∧ parse_raw_credential T W credential
    = or_raise ValidationError (validate_authentication_credential W credential).
Proof.
  intros Hp Hns.
  assert (Hload : json_loads T (replace_char squote dquote (py_str T credential))
                  = Return credential).
  { assert (py_str T credential = py_repr T credential) as ->.
    { destruct credential; try done. by destruct (Hns s). }
    unfold json_loads. fold (raw_text T credential).
    by rewrite (plain_value_reads_back T credential Hp MValue [] eq_refl eq_refl). }
  split; [done|]. unfold parse_raw_credential. by rewrite Hload.
Qed.

Lemma plain_credential_read_back_witness :
  plain_value browser_assertion = true
  ∧ json_loads no_float_text
      (replace_char squote dquote (py_str no_float_text browser_assertion))
    = Return browser_assertion.
Proof.
  assert (Hp : plain_value browser_assertion = true) by (vm_compute; reflexivity).
  split; [exact Hp|].
  apply (plain_credential_read_back no_float_text toy_webauthn browser_assertion Hp).
  intros s. discriminate.
Defined.

(** ** Credentials with a null or a boolean *)

Lemma json_run_items_spoiled T v after :
  (∀ m stack, value_mode m = true → value_slot stack = true →
              json_run T (m, stack) (raw_text T v) = None) →
  ∀ before,
    forallb plain_value before = true →
    ∀ m seen stack,
      value_mode m = true →
      json_run T (m, FArr seen :: stack)
        (join ", " (map (raw_text T) (before ++ v :: after)) +:+ "]")
      = None.
Proof.
  intros Hv. induction before as [|x before IH]; intros Hplain m seen stack Hm.
  - cbn [app map]. destruct after as [|y after].
    + cbn [map join]. by rewrite json_run_app, (Hv m (FArr seen :: stack) Hm eq_refl).
    + change (join ", " (raw_text T v :: map (raw_text T) (y :: after)))
        with (raw_text T v +:+ ", " +:+ join ", " (map (raw_text T) (y :: after))).
      by rewrite !append_assoc, json_run_app, (Hv m (FArr seen :: stack) Hm eq_refl).
  - cbn [forallb] in Hplain. apply andb_prop in Hplain as [Hx Hplain].
    cbn [app map].
    destruct (before ++ v :: after) as [|y rest] eqn:Hrest;
      [by destruct before|].
    change (join ", " (raw_text T x :: map (raw_text T) (y :: rest)))
      with (raw_text T x +:+ ", " +:+ join ", " (map (raw_text T) (y :: rest))).
    rewrite !append_assoc, json_run_app.
    rewrite (plain_value_reads_back T x Hx m (FArr seen :: stack) Hm eq_refl).
    cbn [push_value]. rewrite json_run_app.
    change (json_run T (MAfter, FArr (x :: seen) :: stack) ", ")
      with (Some (MValue, FArr (x :: seen) :: stack)). cbv beta iota.
    by apply IH.
Qed.

Lemma json_run_fields_spoiled T k v after :
  plain_text k = true →
  (∀ m stack, value_mode m = true → value_slot stack = true →
              json_run T (m, stack) (raw_text T v) = None) →
  ∀ before,
    forallb (fun kv => plain_text (fst kv) && plain_value (snd kv)) before = true →
    ∀ m seen stack,
      key_mode m = true →
      distinct (map fst (seen ++ before ++ [(k, v)])) = true →
      json_run T (m, FObj seen :: stack)
        (join ", " (map (raw_field T) (before ++ (k, v) :: after)) +:+ "}")
      = None.
Proof.
  intros Hk Hv.
  assert (Hfield : ∀ m seen stack rest,
            key_mode m = true →
            json_run T (m, FObj seen :: stack) (raw_field T (k, v) +:+ rest) = None).
  { intros m seen stack rest Hm. unfold raw_field. cbn [fst snd].
    rewrite (raw_text_str k Hk), !append_assoc.
    rewrite json_run_app, (json_run_string_key T k m seen stack Hk Hm).
    rewrite json_run_app.
    change (json_run T (MColon, FKey seen k :: stack) ": ")
      with (Some (MValue, FKey seen k :: stack)). cbv beta iota.
    by rewrite json_run_app, (Hv MValue (FKey seen k :: stack) eq_refl eq_refl). }
  induction before as [|[k' x] before IH]; intros Hplain m seen stack Hm Hd.
  - cbn [app map]. destruct after as [|kv after].
    + cbn [map join]. by apply Hfield.
    + change (join ", " (raw_field T (k, v) :: map (raw_field T) (kv :: after)))
        with (raw_field T (k, v) +:+ ", "
              +:+ join ", " (map (raw_field T) (kv :: after))).
      rewrite !append_assoc. by apply Hfield.
  - cbn [forallb fst snd] in Hplain. apply andb_prop in Hplain as [Hkx Hplain].
    apply andb_prop in Hkx as [Hk' Hx].
    pose proof Hd as Hfresh. rewrite map_app in Hfresh. cbn [app map fst] in Hfresh.
    apply distinct_fresh in Hfresh.
    cbn [app map].
    destruct (before ++ (k, v) :: after) as [|kv rest] eqn:Hrest;
      [by destruct before|].
    change (join ", " (raw_field T (k', x) :: map (raw_field T) (kv :: rest)))
      with (raw_field T (k', x) +:+ ", "
            +:+ join ", " (map (raw_field T) (kv :: rest))).
    unfold raw_field at 1. cbn [fst snd].
    rewrite (raw_text_str k' Hk'), !append_assoc.
    rewrite json_run_app, (json_run_string_key T k' m seen stack Hk' Hm).
    rewrite json_run_app.
    change (json_run T (MColon, FKey seen k' :: stack) ": ")
      with (Some (MValue, FKey seen k' :: stack)). cbv beta iota.
    rewrite json_run_app.
    rewrite (plain_value_reads_back T x Hx MValue (FKey seen k' :: stack)
               eq_refl eq_refl).
    cbn [push_value]. rewrite (dict_set_fresh k' x seen Hfresh).
    rewrite json_run_app.
    change (json_run T (MAfter, FObj (seen ++ [(k', x)]) :: stack) ", ")
      with (Some (MKey, FObj (seen ++ [(k', x)]) :: stack)). cbv beta iota.
    apply IH; [done..|]. by rewrite <- app_assoc.
Qed.

Lemma spoiled_not_read T v :
  spoiled v →
  ∀ m stack, value_mode m = true → value_slot stack = true →
             json_run T (m, stack) (raw_text T v) = None.
Proof.
  induction 1 as [|b|before v after Hplain _ IH|before k v after Hplain Hk Hd _ IH];
    intros m stack Hm Hslot.
  - by destruct m.
  - by destruct m, b.
  - rewrite raw_text_arr. cbn [json_run].
    assert (json_step T (m, stack) "[" = Some (MValueOrClose, FArr [] :: stack))
      as -> by (by destruct m).
    by apply json_run_items_spoiled.
  - rewrite raw_text_obj. cbn [json_run].
    assert (json_step T (m, stack) "{" = Some (MKeyOrClose, FObj [] :: stack))
      as -> by (by destruct m).
    by apply json_run_fields_spoiled.
Qed.

(** X13: A credential with a null or a boolean member that the decoder reaches
    (everything before it being plain) cannot be read: [str()] writes
    [None], [True] or [False], which is not JSON.  A [/login/finish] that
    passes the input validation and the geofence while a challenge is
    pending then answers the authentication-failed error and changes
    nothing, whatever the verifier. *)
Theorem null_member_fails_login
    (L : Libm) (T : FloatText) (W : WebAuthn) (st : state)
    (data credential lat lon : jvalue) (dist : float) (challenge : string) :
  login_request data credential lat lon →
  geofence L lat lon = Return (dist, false) →
  session st !! "challenge" = Some challenge →
  challenge ≠ EmptyString →
  spoiled credential →
  parse_raw_credential T W credential = Raise ValueError
  ∧ login_finish L T W st data = (st, AuthenticationFailed ValueError).
Proof.
  intros Hreq Hg Hch Hne Hs.
  assert (Hp : parse_raw_credential T W credential = Raise ValueError).
  { unfold parse_raw_credential.
    assert (py_str T credential = py_repr T credential) as ->
      by (by destruct Hs).
    unfold json_loads. fold (raw_text T credential).
    by rewrite (spoiled_not_read T credential Hs MValue [] eq_refl eq_refl). }
  split; [done|].
  rewrite (login_finish_past_geofence _ _ _ _ _ _ _ _ _ _ Hreq Hg Hch Hne).
  unfold login_finish_try. by rewrite Hp.
Qed.

Lemma null_member_fails_login_witness :
  spoiled browser_assertion_without_handle
  ∧ toy_login_finish alice_login_pending
      (login_body browser_assertion_without_handle at_office)
    = (alice_login_pending, AuthenticationFailed ValueError).
Proof.
  assert (Hs : spoiled browser_assertion_without_handle).
  { apply (SpoiledField
             [("id", JStr "cred-1"); ("rawId", JStr "cred-1");
              ("type", JStr "public-key")]
             "response" _ [("clientExtensionResults", JObj [])]);
      try (vm_compute; reflexivity).
    apply (SpoiledField
             [("authenticatorData",
               JStr "SZYN5YgOjGh0NBcPZHZgW4_krrmihjLHmVzzuoMdl2MFAAAAAQ");
              ("signature", JStr "MEUCIQDx")]
             "userHandle" JNull []);
      try (vm_compute; reflexivity).
    constructor. }
  split; [exact Hs|].
  apply (null_member_fails_login small_angle_libm no_float_text toy_webauthn
           alice_login_pending _ browser_assertion_without_handle
           (JFloat OFFICE_LATITUDE) (JFloat OFFICE_LONGITUDE) 0%float "challenge-2");
    try (vm_compute; reflexivity); try done.
  eexists _, _. split_and!; try reflexivity; try (vm_compute; reflexivity).
  discriminate.
Defined.

(** ** Unique columns and primary keys *)

Lemma NoDup_snoc {A : Type} (l : list A) (x : A) :
  NoDup l → x ∉ l → NoDup (l ++ [x]).
Proof.
  intros Hl Hx. apply NoDup_app. split_and!; [done| |apply NoDup_singleton].
  intros y Hy ->%list_elem_of_singleton. done.
Qed.

Lemma next_id_fresh (ids : list Z) : next_id ids ∉ ids.
Proof.
  intros Hin. apply list_elem_of_In, next_id_gt in Hin. lia.
Qed.

Lemma existsb_eqb_not_in {A : Type} (f : A → string) (l : list A) (u : string) :
  existsb (fun x => String.eqb (f x) u) l = false → u ∉ map f l.
Proof.
  intros Hex Hin. apply list_elem_of_In, in_map_iff in Hin as (x & <- & Hx).
  apply not_true_iff_false in Hex. apply Hex, existsb_exists.
  exists x. split; [done|apply String.eqb_refl].
Qed.

Lemma existsb_or_false_r {A : Type} (p q : A → bool) (l : list A) :
  existsb (fun x => p x || q x) l = false → existsb q l = false.
Proof.
  induction l as [|y l IH]; simpl; [done|]. intros H.
  apply orb_false_elim in H as [Hy Hl]. apply orb_false_elim in Hy as [_ ->].
  auto.
Qed.

Lemma unique_rows_empty : unique_rows empty_database.
Proof. unfold unique_rows. simpl. split_and!; apply NoDup_nil_2. Qed.

Lemma add_employee_unique d username user_handle d' e :
  unique_rows d →
  add_employee d username user_handle = Return (d', e) →
  unique_rows d'.
Proof.
  intros (Hi & Hu & Hh & Hrest) Hadd.
  destruct (add_employee_cases d username user_handle)
    as [[He _]|(e' & He & Hid & Hun & Huh & Hex)]; rewrite He in Hadd;
    simplify_eq.
  unfold unique_rows. simpl. rewrite !map_app. simpl.
  split_and!; try apply Hrest.
  - apply NoDup_snoc; [done|]. rewrite Hid. apply next_id_fresh.
  - apply NoDup_snoc; [done|].
    by apply existsb_eqb_not_in, (existsb_or_false _ _ _ Hex).
  - apply NoDup_snoc; [done|].
    by apply existsb_eqb_not_in, (existsb_or_false_r _ _ _ Hex).
Qed.

Lemma add_credential_unique d credential_id public_key sign_count employee_id d' :
  unique_rows d →
  add_credential d credential_id public_key sign_count employee_id = Return d' →
  unique_rows d'.
Proof.
  intros (Hi & Hu & Hh & Hci & Hcc & Ha) Hadd. unfold add_credential in Hadd.
  destruct (existsb _ _) eqn:Hex; [done|]. simplify_eq.
  unfold unique_rows. simpl. rewrite !map_app. simpl.
  split_and!; try done.
  - apply NoDup_snoc; [done|]. apply next_id_fresh.
  - apply NoDup_snoc; [done|]. by apply existsb_eqb_not_in.
Qed.

Lemma handle_unique_rows L T W st req :
  unique_rows (db st) → unique_rows (db (fst (handle L T W st req))).
Proof.
  intros Hun. destruct req as [uuid4 ch u|credential|ch u|data]; simpl.
  - by rewrite register_start_db.
  - destruct (register_finish_cases W st credential) as
      [ | | |challenge username user_handle v d1 e _ _ _ _ _ He Hc
      |challenge username user_handle v d1 e d2 _ _ _ _ _ _ He Hc];
      try done; simpl.
    + by eapply add_employee_unique.
    + eapply add_credential_unique; [|done]. by eapply add_employee_unique.
  - by rewrite login_start_db.
  - by rewrite login_finish_state.
Qed.

(** X14: The columns declared [unique] (user name, user handle, credential id)
    and the primary keys of the three tables never hold a value twice: this
    is so in the empty database and stays so over any sequence of requests
    by any actors. *)
Theorem rows_stay_unique
    (L : Libm) (T : FloatText) (W : WebAuthn) (sv : server)
    (reqs : list (nat * request)) :
  unique_rows (store sv) → unique_rows (store (serve_all L T W sv reqs)).
Proof.
  revert sv. induction reqs as [|[actor req] reqs IH]; intros sv Hun; simpl;
    [done|].
  apply IH. rewrite serve_store.
  apply (handle_unique_rows L T W (state_of sv actor) req Hun).
Qed.

Lemma rows_stay_unique_witness :
  let reqs :=
    [(0, RegisterStart "handle-0" "challenge-0" (Some "bob"));
     (0, RegisterFinish (attestation_of "cred-1" "challenge-0"));
     (1, RegisterStart "handle-1" "challenge-1" (Some "alice"));
     (1, RegisterFinish (attestation_of "cred-1" "challenge-1"));
     (2, RegisterStart "handle-2" "challenge-2" (Some "alice"))] in
  let sv := serve_all small_angle_libm no_float_text toy_webauthn empty_server reqs in
  map Employee.username (employees (store sv)) = ["bob"; "alice"]
  ∧ unique_rows (store sv).
Proof.
  cbv zeta. split; [vm_compute; reflexivity|].
  apply rows_stay_unique, unique_rows_empty.
Defined.

(** ** Responses that are not a success *)

(** X15: A request that is answered with a status other than 200 leaves the whole
    state (the session and the three tables) as it was, with one exception:
    the [/register/finish] whose credential insert is refused has written
    the employee row. *)
Theorem error_responses_write_nothing
    (L : Libm) (T : FloatText) (W : WebAuthn) (st : state) (req : request) :
  status_code (snd (handle L T W st req)) ≠ 200%Z →
  fst (handle L T W st req) = st
  ∨ ∃ credential e,
      req = RegisterFinish credential
      ∧ snd (handle L T W st req) = InternalServerError IntegrityError
      ∧ session (fst (handle L T W st req)) = session st
      ∧ employees (db (fst (handle L T W st req))) = employees (db st) ++ [e]
      ∧ credentials (db (fst (handle L T W st req))) = credentials (db st)
      ∧ attendance (db (fst (handle L T W st req))) = attendance (db st).
Proof.
  destruct req as [uuid4 ch u|credential|ch u|data]; simpl.
  - unfold register_start. repeat case_match; simpl; intros ?; by left.
  - intros Hs.
    destruct (register_finish_cases W st credential) as
      [ | | |challenge username user_handle v d1 e _ _ _ _ _ He Hc| ];
      try (by left).
    right. exists credential, e.
    destruct (add_employee_cases (db st) username user_handle)
      as [[He' _]|(e' & He' & _)]; rewrite He' in He; simplify_eq.
    by split_and!.
  - unfold login_start. repeat case_match; simpl; intros ?; by left.
  - intros Hs. left. apply login_finish_failure.
    by destruct (snd (login_finish L T W st data)).
Qed.

Lemma error_responses_write_nothing_witness :
  status_code (snd (handle small_angle_libm no_float_text toy_webauthn alice_pending
                      (RegisterFinish (alice_attestation "stale")))) = 400%Z
  ∧ fst (handle small_angle_libm no_float_text toy_webauthn alice_pending
           (RegisterFinish (alice_attestation "stale"))) = alice_pending.
Proof.
  split; [vm_compute; reflexivity|].
  destruct (error_responses_write_nothing small_angle_libm no_float_text
              toy_webauthn alice_pending
              (RegisterFinish (alice_attestation "stale")))
    as [H|(c & e & _ & H & _)]; [vm_compute; discriminate|exact H|].
  vm_compute in H. discriminate.
Defined.
